(** * 41 Parallelo: the booking register (Streamlit + SQLite + iCal)

    A shallow embedding of [41_parallelo_app.py] (the variant with the
    iCal integration; the older variant in the same file has the same
    [fetch_bookings], [has_overlap] and [occupancy_matrix]).

    - The [bookings] table is the list of its rows; the columns have the
      types the schema declares, a nullable column is an [option].
    - A calendar date is its day number, a timestamp a number of seconds:
      both are [Z].  SQLite compares the ISO texts of dates, which is the
      order of the day numbers.
    - A text is a [string]; a character is an [ascii].
    - SQL conditions are three-valued: a [WHERE] keeps the rows on which
      the condition is TRUE, neither those where it is FALSE nor NULL.
    - Python exceptions are results of [result]; a transaction that raises
      is rolled back, so the store is the one before the call.
    - Storage failures (I/O, a full rowid space) are outside the model. *)

From Stdlib Require Import ZArith List String Ascii Bool Lia.
From Stdlib Require Import Sorting.Sorted Sorting.Permutation.
From Stdlib Require Import Floats.
Import ListNotations.
Local Open Scope string_scope.
Local Open Scope list_scope.
Local Open Scope Z_scope.

Definition date := Z.
Definition timestamp := Z.

(** ** Python values the program passes around *)

Inductive exn :=
| KeyError (key : string)
| IntegrityError (column : string).

Inductive result (A : Type) :=
| Ok (a : A)
| Raise (e : exn).
Arguments Ok {A} a.
Arguments Raise {A} e.

(** An entry of the [data] dict of [insert_booking] and [update_booking]:
    the key is missing, or bound to [None] or to a value. *)
Inductive entry (A : Type) :=
| Absent
| Present (v : option A).
Arguments Absent {A}.
Arguments Present {A} v.

(** [data.get(k)] *)
Definition get {A} (e : entry A) : option A :=
  match e with
  | Absent => None
  | Present v => v
  end.

(** [data.get(k, d)] *)
Definition get_default {A} (e : entry A) (d : A) : option A :=
  match e with
  | Absent => Some d
  | Present v => v
  end.

(** [data[k]] *)
Definition getitem {A} (e : entry A) (k : string) : result (option A) :=
  match e with
  | Absent => Raise (KeyError k)
  | Present v => Ok v
  end.

(** Truth value of an [Optional[str]]: [None] and the empty string are
    false. *)
Definition truthy (s : option string) : bool :=
  match s with
  | None => false
  | Some s => negb (String.eqb s "")
  end.

(** ** SQL: three-valued conditions and LIKE *)

Module Sql.

(** [None] is NULL (unknown). *)
Definition tv := option bool.

Definition tv_and (a b : tv) : tv :=
  match a, b with
  | Some false, _ | _, Some false => Some false
  | Some true, Some true => Some true
  | _, _ => None
  end.

Definition tv_or (a b : tv) : tv :=
  match a, b with
  | Some true, _ | _, Some true => Some true
  | Some false, Some false => Some false
  | _, _ => None
  end.

(** What a [WHERE] does with the value of its condition. *)
Definition holds (c : tv) : bool :=
  match c with
  | Some true => true
  | _ => false
  end.

(** [col = ?] and [col != ?] on a text column, the parameter a [str]. *)
Definition eq_text (col : option string) (p : string) : tv :=
  option_map (fun s => String.eqb s p) col.

Definition ne_text (col : option string) (p : string) : tv :=
  option_map (fun s => negb (String.eqb s p)) col.

(** LIKE folds the case of the 26 ASCII letters only. *)
Definition fold_case (c : ascii) : ascii :=
  let n := nat_of_ascii c in
  if ((65 <=? n) && (n <=? 90))%nat then ascii_of_nat (n + 32) else c.

Definition same_char (c d : ascii) : bool :=
  Ascii.eqb (fold_case c) (fold_case d).

(** [text LIKE pattern], no ESCAPE clause: [%] stands for any run of
    characters, [_] for exactly one, any other character for itself up
    to ASCII case. *)
Fixpoint like_match (pattern text : string) : bool :=
  match pattern with
  | EmptyString =>
      match text with
      | EmptyString => true
      | String _ _ => false
      end
  | String p pattern' =>
      if Ascii.eqb p "%" then
        (fix any_run (t : string) : bool :=
           like_match pattern' t ||
           match t with
           | EmptyString => false
           | String _ t' => any_run t'
           end) text
      else
        match text with
        | EmptyString => false
        | String c text' =>
            (Ascii.eqb p "_" || same_char p c) && like_match pattern' text'
        end
  end.

Definition like (col : option string) (pattern : string) : tv :=
  option_map (like_match pattern) col.

End Sql.

(** Exceptions propagate through a sequence of steps. *)
Definition bind {A B} (r : result A) (k : A -> result B) : result B :=
  match r with
  | Ok a => k a
  | Raise e => Raise e
  end.

Notation "x <- r ;; k" := (bind r (fun x => k))
  (at level 61, r at next level, right associativity).

(** ** The schema *)

Module Booking.

(** A row of [bookings]: [guest_name], [check_in] and [check_out] are
    NOT NULL; [id] is the INTEGER PRIMARY KEY; the two timestamps are
    only ever written from CURRENT_TIMESTAMP. *)
Record t := {
  id : Z;
  guest_name : string;
  email : option string;
  phone : option string;
  source : option string;
  room : option string;
  status : option string;
  check_in : date;
  check_out : date;
  guests : option Z;
  price : option float;
  notes : option string;
  external_source : option string;
  external_uid : option string;
  created_at : timestamp;
  updated_at : timestamp
}.

End Booking.

(** The [data] dict, by key. *)
Record dict := {
  d_guest_name : entry string;
  d_email : entry string;
  d_phone : entry string;
  d_source : entry string;
  d_room : entry string;
  d_status : entry string;
  d_check_in : entry date;
  d_check_out : entry date;
  d_guests : entry Z;
  d_price : entry float;
  d_notes : entry string;
  d_external_source : entry string;
  d_external_uid : entry string
}.

(** The database file: the two tables and the AUTOINCREMENT counter of
    [bookings] (the largest rowid ever given out). *)
Record store := {
  bookings : list Booking.t;
  sqlite_sequence : Z;
  ical_endpoints : list (string * string)
}.

Definition with_bookings (st : store) (rows : list Booking.t) (seq : Z) : store :=
  {| bookings := rows;
     sqlite_sequence := seq;
     ical_endpoints := ical_endpoints st |}.

Definition max_rowid (rows : list Booking.t) : Z :=
  fold_right (fun b m => Z.max (Booking.id b) m) 0 rows.

(** AUTOINCREMENT: one more than the largest rowid that ever existed. *)
Definition next_rowid (st : store) : Z :=
  Z.max (sqlite_sequence st) (max_rowid (bookings st)) + 1.

(** ** DB layer *)

Definition not_null {A} (column : string) (v : option A) : result A :=
  match v with
  | Some a => Ok a
  | None => Raise (IntegrityError column)
  end.

(** [insert_booking(data)].  The values of the dict are those SQLite
    keeps as they are: the model has no turn for an integer outside 64
    bits (binding it raises OverflowError) nor for a price that is no
    number (NaN is stored as NULL) or is the negative zero (stored as
    0.0). *)
Definition insert_booking (data : dict) (now : timestamp) (st : store)
  : result (Z * store) :=
  g <- getitem (d_guest_name data) "guest_name" ;;
  ci <- getitem (d_check_in data) "check_in" ;;
  co <- getitem (d_check_out data) "check_out" ;;
  g <- not_null "bookings.guest_name" g ;;
  ci <- not_null "bookings.check_in" ci ;;
  co <- not_null "bookings.check_out" co ;;
  let lastrowid := next_rowid st in
  let row :=
    {| Booking.id := lastrowid;
       Booking.guest_name := g;
       Booking.email := get (d_email data);
       Booking.phone := get (d_phone data);
       Booking.source := get (d_source data);
       Booking.room := get (d_room data);
       Booking.status := get (d_status data);
       Booking.check_in := ci;
       Booking.check_out := co;
       Booking.guests := get_default (d_guests data) 1;
       Booking.price := get_default (d_price data) 0%float;
       Booking.notes := get (d_notes data);
       Booking.external_source := get (d_external_source data);
       Booking.external_uid := get (d_external_uid data);
       Booking.created_at := now;
       Booking.updated_at := now |} in
  Ok (lastrowid, with_bookings st (bookings st ++ [row]) lastrowid).

(** The row an UPDATE writes over [b]: the thirteen listed columns and
    [updated_at]. *)
Definition updated_row (b : Booking.t) (g : string) (ci co : date)
    (data : dict) (now : timestamp) : Booking.t :=
  {| Booking.id := Booking.id b;
     Booking.guest_name := g;
     Booking.email := get (d_email data);
     Booking.phone := get (d_phone data);
     Booking.source := get (d_source data);
     Booking.room := get (d_room data);
     Booking.status := get (d_status data);
     Booking.check_in := ci;
     Booking.check_out := co;
     Booking.guests := get (d_guests data);
     Booking.price := get (d_price data);
     Booking.notes := get (d_notes data);
     Booking.external_source := get (d_external_source data);
     Booking.external_uid := get (d_external_uid data);
     Booking.created_at := Booking.created_at b;
     Booking.updated_at := now |}.

(** [UPDATE bookings SET ... WHERE id = ?]: the NOT NULL constraints are
    checked on the rows the statement touches, so with no such row
    nothing is checked and nothing changes. *)
Definition update_booking (booking_id : Z) (data : dict) (now : timestamp)
    (st : store) : result store :=
  if existsb (fun b => Booking.id b =? booking_id) (bookings st) then
    g <- not_null "bookings.guest_name" (get (d_guest_name data)) ;;
    ci <- not_null "bookings.check_in" (get (d_check_in data)) ;;
    co <- not_null "bookings.check_out" (get (d_check_out data)) ;;
    Ok (with_bookings st
          (map (fun b => if Booking.id b =? booking_id
                         then updated_row b g ci co data now else b)
               (bookings st))
          (sqlite_sequence st))
  else Ok st.

Definition delete_booking (booking_id : Z) (st : store) : store :=
  with_bookings st
    (filter (fun b => negb (Booking.id b =? booking_id)) (bookings st))
    (sqlite_sequence st).

(** [ORDER BY check_in ASC]: rows with the same [check_in] stay in table
    order here; SQL leaves their order open. *)
Fixpoint insert_by_check_in (b : Booking.t) (l : list Booking.t) : list Booking.t :=
  match l with
  | [] => [b]
  | x :: l' =>
      if Booking.check_in b <=? Booking.check_in x then b :: l
      else x :: insert_by_check_in b l'
  end.

Definition order_by_check_in (l : list Booking.t) : list Booking.t :=
  fold_right insert_by_check_in [] l.

(** The condition [fetch_bookings] builds, clause by clause. *)
Definition fetch_where (start end_ : option date) (status room search : option string)
    (b : Booking.t) : Sql.tv :=
  let c := Some true in
  let c := match start with
           | Some s => Sql.tv_and c (Some (Booking.check_out b >? s))
           | None => c
           end in
  let c := match end_ with
           | Some e => Sql.tv_and c (Some (Booking.check_in b <? e))
           | None => c
           end in
  let c := match status with
           | Some v =>
               if truthy status && negb (String.eqb v "Tutte")
               then Sql.tv_and c (Sql.eq_text (Booking.status b) v) else c
           | None => c
           end in
  let c := match room with
           | Some v =>
               if truthy room && negb (String.eqb v "Tutte")
               then Sql.tv_and c (Sql.eq_text (Booking.room b) v) else c
           | None => c
           end in
  match search with
  | Some q =>
      if truthy search then
        let like := ("%" ++ q ++ "%")%string in
        Sql.tv_and c
          (Sql.tv_or (Sql.tv_or (Sql.tv_or
             (Sql.like (Some (Booking.guest_name b)) like)
             (Sql.like (Booking.email b) like))
             (Sql.like (Booking.phone b) like))
             (Sql.like (Booking.notes b) like))
      else c
  | None => c
  end.

Definition fetch_bookings (start end_ : option date) (status room search : option string)
    (st : store) : list Booking.t :=
  order_by_check_in
    (filter (fun b => Sql.holds (fetch_where start end_ status room search b))
            (bookings st)).

(** The rows [has_overlap] selects; the second component is the data
    frame of conflicts (in table order here, SQL leaves it open). *)
Definition overlap_where (check_in check_out : date) (room : string)
    (exclude_id : option Z) (b : Booking.t) : Sql.tv :=
  let c :=
    Sql.tv_and (Sql.tv_and (Sql.tv_and
      (Sql.eq_text (Booking.room b) room)
      (Sql.ne_text (Booking.status b) "Annullata"))
      (Some (Booking.check_in b <? check_out)))
      (Some (Booking.check_out b >? check_in)) in
  match exclude_id with
  | Some x => Sql.tv_and c (Some (negb (Booking.id b =? x)))
  | None => c
  end.

Definition has_overlap (check_in check_out : date) (room : string)
    (exclude_id : option Z) (st : store) : bool * list Booking.t :=
  let df := filter (fun b => Sql.holds (overlap_where check_in check_out room exclude_id b))
                   (bookings st) in
  (0 <? Z.of_nat (List.length df), df).

(** ** What the page shows and does

    The calls the script makes to Streamlit and to the network, in order.
    The Italian texts are named, not spelled out. *)

Inductive message :=
| GuestNameRequired
| CheckOutAfterCheckIn
| OverlapWarning
| Saved (booking_id : Z)
| Updated
| DownloadFailed (room : string)
| ParsingFailed (room : string)
| SyncDone (count_total : Z).

Inductive effect :=
| http_get (url : string)
| st_error (m : message)
| st_warning (m : message)
| st_success (m : message)
| st_dataframe (rows : list Booking.t).

(** ** Booking.com iCal integration *)

Module ICal.

Definition provider_tag : string := "booking_com_ical".

(** What the program reads of an Arrow instant: [.date()] and [str()]. *)
Record Arrow := {
  arrow_date : date;
  arrow_str : string
}.

(** What the program reads of an [ics] event. *)
Record Event := {
  uid : option string;
  begin : option Arrow;
  end_ : option Arrow;
  name : option string
}.

(** *** [parse_guest_from_summary] *)

Definition tokens : list string :=
  ["Prenotazione"; "Reservation"; "Booking"; "Guest"; "Ospite"; "#"].

(** [tok] starts [s], up to case ([re.I]). *)
Fixpoint ci_prefix (tok s : string) : bool :=
  match tok, s with
  | EmptyString, _ => true
  | String a tok', String c s' => Sql.same_char a c && ci_prefix tok' s'
  | String _ _, EmptyString => false
  end.

(** [re.sub(tokens, "", s)]: left to right, at each place the first
    alternative that matches is removed; [skip] characters of a match
    are still to be dropped. *)
Fixpoint re_sub_tokens (skip : nat) (s : string) : string :=
  match s with
  | EmptyString => EmptyString
  | String c s' =>
      match skip with
      | S k => re_sub_tokens k s'
      | O =>
          match find (fun tok => ci_prefix tok s) tokens with
          | Some tok => re_sub_tokens (String.length tok - 1) s'
          | None => String c (re_sub_tokens 0 s')
          end
      end
  end.

(** [str.isspace] on the characters of the model. *)
Definition is_space (c : ascii) : bool :=
  let n := nat_of_ascii c in
  (((9 <=? n) && (n <=? 13)) || ((28 <=? n) && (n <=? 32))
   || (n =? 133) || (n =? 160))%nat.

Fixpoint lstrip (s : string) : string :=
  match s with
  | EmptyString => EmptyString
  | String c s' => if is_space c then lstrip s' else s
  end.

Fixpoint rstrip (s : string) : string :=
  match s with
  | EmptyString => EmptyString
  | String c s' =>
      match rstrip s' with
      | EmptyString => if is_space c then EmptyString else String c EmptyString
      | r => String c r
      end
  end.

Definition strip (s : string) : string := rstrip (lstrip s).

Definition parse_guest_from_summary (summary : string) : string :=
  if String.eqb summary "" then "Ospite Booking"
  else
    let s := strip (re_sub_tokens 0 summary) in
    if String.eqb s "" then "Ospite Booking" else s.

(** *** [import_ics_for_room] *)

(** [f"{x}"] of an optional instant. *)
Definition fstr (a : option Arrow) : string :=
  match a with
  | Some t => arrow_str t
  | None => "None"
  end.

(** [getattr(ev, "uid", None) or f"{room}-{begin}-{end}"] *)
Definition event_uid (room : string) (ev : Event) : string :=
  if truthy (uid ev) then
    match uid ev with
    | Some u => u
    | None => EmptyString
    end
  else (room ++ "-" ++ fstr (begin ev) ++ "-" ++ fstr (end_ ev))%string.

(** [SELECT id FROM bookings WHERE external_source=? AND external_uid=?]
    has a row. *)
Definition already_imported (u : string) (st : store) : bool :=
  existsb
    (fun b => Sql.holds (Sql.tv_and
                (Sql.eq_text (Booking.external_source b) provider_tag)
                (Sql.eq_text (Booking.external_uid b) u)))
    (bookings st).

(** The row the INSERT of the loop writes; [email] and [phone] are not
    listed and have no default. *)
Definition imported_row (lastrowid : Z) (guest room : string) (start end' : date)
    (u : string) (now : timestamp) : Booking.t :=
  {| Booking.id := lastrowid;
     Booking.guest_name := guest;
     Booking.email := None;
     Booking.phone := None;
     Booking.source := Some "Booking";
     Booking.room := Some room;
     Booking.status := Some "Confermata";
     Booking.check_in := start;
     Booking.check_out := end';
     Booking.guests := Some 2;
     Booking.price := Some 0%float;
     Booking.notes := Some "Import iCal";
     Booking.external_source := Some provider_tag;
     Booking.external_uid := Some u;
     Booking.created_at := now;
     Booking.updated_at := now |}.

(** One turn of the loop over [cal.events]; [now] is CURRENT_TIMESTAMP
    at that turn. *)
Definition import_event (room : string) (now : timestamp) (ev : Event)
    (acc : store * Z) : store * Z :=
  let '(st, created) := acc in
  let u := event_uid room ev in
  match option_map arrow_date (begin ev), option_map arrow_date (end_ ev) with
  | Some start, Some end' =>
      let guest := parse_guest_from_summary
                     (match name ev with Some n => n | None => "" end) in
      if already_imported u st then acc
      else
        let lastrowid := next_rowid st in
        (with_bookings st
           (bookings st ++ [imported_row lastrowid guest room start end' u now])
           lastrowid,
         created + 1)
  | _, _ => acc
  end.

(** The loop; [clock i] is the time of the turn of the [i]-th event. *)
Fixpoint import_events (room : string) (clock : nat -> timestamp) (i : nat)
    (events : list Event) (acc : store * Z) : store * Z :=
  match events with
  | [] => acc
  | ev :: events' =>
      import_events room clock (S i) events' (import_event room (clock i) ev acc)
  end.

Section World.

(** The two collaborators that are not part of the program, as one run
    meets them: [requests.get(url, timeout=20)] followed by
    [raise_for_status()] gives the text of the feed or raises;
    [Calendar(text)] gives the events, in the order the loop meets them,
    or raises.  [Calendar] is the parse of this run: [ics] gives an
    event that has no UID in the text a random identifier, a new one at
    every parse, so two runs over the same text are two parsers. *)
Variable requests_get : string -> option string.
Variable Calendar : string -> option (list Event).

Definition import_ics_for_room (room url : string) (clock : nat -> timestamp)
    (st : store) : store * Z * list effect :=
  match requests_get url with
  | None => (st, 0, [http_get url; st_error (DownloadFailed room)])
  | Some text =>
      match Calendar text with
      | None => (st, 0, [http_get url; st_error (ParsingFailed room)])
      | Some events =>
          let '(st', created) := import_events room clock 0 events (st, 0) in
          (st', created, [http_get url])
      end
  end.

(** [get_ical_map()]: [room] is the primary key of [ical_endpoints],
    so the dict has the rows of the table, in their order. *)
Definition get_ical_map (st : store) : list (string * string) :=
  ical_endpoints st.

(** The loop of the button that syncs every room; [clock r] is the
    clock of the run for room [r]. *)
Fixpoint sync_rooms (map : list (string * string))
    (clock : string -> nat -> timestamp) (acc : store * Z * list effect)
    : store * Z * list effect :=
  match map with
  | [] => acc
  | (r, u) :: map' =>
      let '(st, count_total, log) := acc in
      let '(st', n, log') := import_ics_for_room r u (clock r) st in
      sync_rooms map' clock (st', count_total + n, log ++ log')
  end.

Definition sync_button (clock : string -> nat -> timestamp) (st : store)
    : store * list effect :=
  let '(st', count_total, log) := sync_rooms (get_ical_map st) clock (st, 0, []) in
  (st', log ++ [st_success (SyncDone count_total)]).

End World.

End ICal.

(** ** UI helpers *)

(** [pd.date_range(a, b, freq="D")]: the days from [a] to [b], both
    included; empty when [b] is before [a]. *)
Definition date_range (a b : date) : list date :=
  map (fun i => a + Z.of_nat i) (seq 0 (Z.to_nat (b - a + 1))).

(** A data frame with dates as row labels and room names as column
    labels; [cells] is row by row. *)
Record DataFrame := {
  index : list date;
  columns : list string;
  cells : list (list Z)
}.

Definition mem_date (d : date) (l : list date) : bool :=
  existsb (fun x => x =? d) l.

Definition mem_text (s : string) (l : list string) : bool :=
  existsb (fun x => String.eqb x s) l.

(** [mat.loc[rng, room] = v]: pandas raises KeyError when a label of
    [rng] is not in the index; otherwise every row labelled in [rng] gets
    [v] in the columns named [room]. *)
Definition loc_set (rng : list date) (room : string) (v : Z) (mat : DataFrame)
    : result DataFrame :=
  if forallb (fun d => mem_date d (index mat)) rng then
    Ok {| index := index mat;
          columns := columns mat;
          cells :=
            map (fun lr =>
                   if mem_date (fst lr) rng
                   then map (fun cv => if String.eqb (fst cv) room then v else snd cv)
                            (combine (columns mat) (snd lr))
                   else snd lr)
                (combine (index mat) (cells mat)) |}
  else Raise (KeyError "not in index").

(** [mat.loc[d, room]], for reading a cell of the result. *)
Definition cell (mat : DataFrame) (d : date) (room : string) : option Z :=
  match find (fun lr => fst lr =? d) (combine (index mat) (cells mat)) with
  | Some (_, row) =>
      option_map snd (find (fun cv => String.eqb (fst cv) room)
                           (combine (columns mat) row))
  | None => None
  end.

(** One turn of the loop over the fetched bookings: the nights from
    [check_in] to the day before [check_out] are marked, when the room
    is a column. *)
Definition mark_nights (acc : result DataFrame) (b : Booking.t) : result DataFrame :=
  mat <- acc ;;
  let rng := date_range (Booking.check_in b) (Booking.check_out b - 1) in
  match Booking.room b with
  | Some r => if mem_text r (columns mat) then loc_set rng r 1 mat else Ok mat
  | None => Ok mat
  end.

Definition occupancy_matrix (period_start period_end : date) (rooms : list string)
    (st : store) : result DataFrame :=
  let df := fetch_bookings (Some period_start) (Some period_end) None None None st in
  let idx := date_range period_start period_end in
  let mat := {| index := idx;
                columns := rooms;
                cells := map (fun _ => map (fun _ => 0) rooms) idx |} in
  fold_left mark_nights df (Ok mat).

(** ** The forms *)

(** The widgets of a booking form, as read when it is submitted. *)
Record form := {
  f_guest_name : string;
  f_email : string;
  f_phone : string;
  f_source : string;
  f_room : string;
  f_status : string;
  f_check_in : date;
  f_check_out : date;
  f_guests : Z;
  f_price : float;
  f_notes : string
}.

(** The dict both forms build: eleven keys, the provenance pair is not
    among them. *)
Definition form_data (f : form) : dict :=
  {| d_guest_name := Present (Some (f_guest_name f));
     d_email := Present (Some (f_email f));
     d_phone := Present (Some (f_phone f));
     d_source := Present (Some (f_source f));
     d_room := Present (Some (f_room f));
     d_status := Present (Some (f_status f));
     d_check_in := Present (Some (f_check_in f));
     d_check_out := Present (Some (f_check_out f));
     d_guests := Present (Some (f_guests f));
     d_price := Present (Some (f_price f));
     d_notes := Present (Some (f_notes f));
     d_external_source := Absent;
     d_external_uid := Absent |}.

(** What a run of a handler leaves: the store, what was shown, and the
    exception that ended it, if one did. *)
Record page := {
  db : store;
  shown : list effect;
  raised : option exn
}.

(** The warning both forms show on a conflict. *)
Definition overlap_notice (overlap : bool) (conflicts : list Booking.t)
    (status : string) : list effect :=
  if overlap && negb (String.eqb status "Annullata")
  then [st_dataframe conflicts; st_warning OverlapWarning]
  else [].

(** [if submitted:] of the form for a new booking. *)
Definition new_booking_form (f : form) (now : timestamp) (st : store) : page :=
  if String.eqb (f_guest_name f) "" then
    {| db := st; shown := [st_error GuestNameRequired]; raised := None |}
  else if f_check_out f <=? f_check_in f then
    {| db := st; shown := [st_error CheckOutAfterCheckIn]; raised := None |}
  else
    let '(overlap, conflicts) :=
      has_overlap (f_check_in f) (f_check_out f) (f_room f) None st in
    let notice := overlap_notice overlap conflicts (f_status f) in
    match insert_booking (form_data f) now st with
    | Ok (booking_id, st') =>
        {| db := st'; shown := notice ++ [st_success (Saved booking_id)]; raised := None |}
    | Raise e => {| db := st; shown := notice; raised := Some e |}
    end.

(** [if do_update:] of the form that edits the booking [sel_id]. *)
Definition edit_form (sel_id : Z) (f : form) (now : timestamp) (st : store) : page :=
  if String.eqb (f_guest_name f) "" then
    {| db := st; shown := [st_error GuestNameRequired]; raised := None |}
  else if f_check_out f <=? f_check_in f then
    {| db := st; shown := [st_error CheckOutAfterCheckIn]; raised := None |}
  else
    let '(overlap, conflicts) :=
      has_overlap (f_check_in f) (f_check_out f) (f_room f) (Some sel_id) st in
    let notice := overlap_notice overlap conflicts (f_status f) in
    match update_booking sel_id (form_data f) now st with
    | Ok st' => {| db := st'; shown := notice ++ [st_success Updated]; raised := None |}
    | Raise e => {| db := st; shown := notice; raised := Some e |}
    end.

(** ** The functions around the claims' paths *)

(** [SELECT DISTINCT room FROM bookings ORDER BY room]: one row per
    value, NULL counting as one value and sorting first, the texts in the
    order of their characters. *)
Definition room_eqb (a b : option string) : bool :=
  match a, b with
  | None, None => true
  | Some x, Some y => String.eqb x y
  | _, _ => false
  end.

Definition room_leb (a b : option string) : bool :=
  match a, b with
  | None, _ => true
  | Some _, None => false
  | Some x, Some y => String.leb x y
  end.

Fixpoint distinct (l : list (option string)) : list (option string) :=
  match l with
  | [] => []
  | x :: l' => if existsb (room_eqb x) l' then distinct l' else x :: distinct l'
  end.

Fixpoint insert_by_room (r : option string) (l : list (option string))
    : list (option string) :=
  match l with
  | [] => [r]
  | x :: l' => if room_leb r x then r :: l else x :: insert_by_room r l'
  end.

Definition order_by_room (l : list (option string)) : list (option string) :=
  fold_right insert_by_room [] l.

Definition default_rooms : list string :=
  ["Camera 1"; "Camera 2"; "Appartamento"].

(** [rooms_list()]: the rooms of the table, then each default that is
    not in the list yet.  A booking without a room puts [None] in the
    list. *)
Definition rooms_list (st : store) : list (option string) :=
  let existing := order_by_room (distinct (map Booking.room (bookings st))) in
  fold_left
    (fun existing d =>
       if existsb (room_eqb (Some d)) existing then existing
       else existing ++ [Some d])
    default_rooms existing.

Definition with_endpoints (st : store) (rows : list (string * string)) : store :=
  {| bookings := bookings st;
     sqlite_sequence := sqlite_sequence st;
     ical_endpoints := rows |}.

(** [INSERT INTO ical_endpoints ... ON CONFLICT(room) DO UPDATE SET url]:
    the row of the room gets the url where it stands, a new room gets a
    row after the others.  (The [updated_at] of the table is written
    here and read nowhere; the store keeps the two columns that are
    read.) *)
Fixpoint upsert_row (room url : string) (rows : list (string * string))
    : list (string * string) :=
  match rows with
  | [] => [(room, url)]
  | (r, u) :: rows' =>
      if String.eqb r room then (r, url) :: rows'
      else (r, u) :: upsert_row room url rows'
  end.

Definition upsert_ical_endpoint (room url : string) (st : store) : store :=
  with_endpoints st (upsert_row room url (ical_endpoints st)).

(** The loop of [if save_urls:] over the text inputs of the iCal form,
    one input per room: an input that is blank after [strip()] is passed
    over. *)
Definition save_urls (url_inputs : list (string * string)) (st : store) : store :=
  fold_left
    (fun st ru =>
       let u := ICal.strip (snd ru) in
       if negb (String.eqb u "") then upsert_ical_endpoint (fst ru) u st else st)
    url_inputs st.

(** The day numbers of [date.min], 0001-01-01, and of [date.max],
    9999-12-31 (Python's [toordinal]): a [date] lies between the two. *)
Definition date_min : date := 1.
Definition date_max : date := 3652059.

(** How a run of the generator ends: the loop is left, or adding a day
    to [date.max] raises OverflowError. *)
Inductive generator_end :=
| StopIteration
| OverflowError.

(** [daterange(start, end)] of the older variant: the generator runs
    [while cur <= end], yielding [cur] and then adding a day to it; on
    [date.max] the addition raises, after the day was yielded.  The
    result is the days yielded and how the run ended; [fuel] bounds the
    turns of the loop, [None] when it runs out. *)
Fixpoint daterange (fuel : nat) (start end_ : date)
    : option (list date * generator_end) :=
  match fuel with
  | O => None
  | S fuel' =>
      if start <=? end_ then
        if start =? date_max then Some ([start], OverflowError)
        else option_map (fun r => (start :: fst r, snd r))
                        (daterange fuel' (start + 1) end_)
      else Some ([], StopIteration)
  end.

(** * The vocabulary of the statements *)

(** The rows the overlap query is meant to select. *)
Definition conflicting (check_in check_out : date) (room : string)
    (exclude_id : option Z) (b : Booking.t) : Prop :=
  Booking.room b = Some room /\
  (exists s, Booking.status b = Some s /\ s <> "Annullata") /\
  (forall x, exclude_id = Some x -> Booking.id b <> x) /\
  Booking.check_in b < check_out /\
  Booking.check_out b > check_in.

(** [new] is [old] after an UPDATE from [data] at time [now]: the
    thirteen listed columns come from the dict, [updated_at] is
    refreshed, [id] and [created_at] stay. *)
Definition replaced_by (data : dict) (now : timestamp) (old new : Booking.t) : Prop :=
  Booking.id new = Booking.id old
  /\ Booking.created_at new = Booking.created_at old
  /\ Booking.updated_at new = now
  /\ Some (Booking.guest_name new) = get (d_guest_name data)
  /\ Booking.email new = get (d_email data)
  /\ Booking.phone new = get (d_phone data)
  /\ Booking.source new = get (d_source data)
  /\ Booking.room new = get (d_room data)
  /\ Booking.status new = get (d_status data)
  /\ Some (Booking.check_in new) = get (d_check_in data)
  /\ Some (Booking.check_out new) = get (d_check_out data)
  /\ Booking.guests new = get (d_guests data)
  /\ Booking.price new = get (d_price data)
  /\ Booking.notes new = get (d_notes data)
  /\ Booking.external_source new = get (d_external_source data)
  /\ Booking.external_uid new = get (d_external_uid data).

(** The row the form for a new booking stores. *)
Definition form_row (lastrowid : Z) (f : form) (now : timestamp) : Booking.t :=
  {| Booking.id := lastrowid;
     Booking.guest_name := f_guest_name f;
     Booking.email := Some (f_email f);
     Booking.phone := Some (f_phone f);
     Booking.source := Some (f_source f);
     Booking.room := Some (f_room f);
     Booking.status := Some (f_status f);
     Booking.check_in := f_check_in f;
     Booking.check_out := f_check_out f;
     Booking.guests := Some (f_guests f);
     Booking.price := Some (f_price f);
     Booking.notes := Some (f_notes f);
     Booking.external_source := None;
     Booking.external_uid := None;
     Booking.created_at := now;
     Booking.updated_at := now |}.

(** The row the edit form leaves in place of [b]. *)
Definition edited_row (b : Booking.t) (f : form) (now : timestamp) : Booking.t :=
  {| Booking.id := Booking.id b;
     Booking.guest_name := f_guest_name f;
     Booking.email := Some (f_email f);
     Booking.phone := Some (f_phone f);
     Booking.source := Some (f_source f);
     Booking.room := Some (f_room f);
     Booking.status := Some (f_status f);
     Booking.check_in := f_check_in f;
     Booking.check_out := f_check_out f;
     Booking.guests := Some (f_guests f);
     Booking.price := Some (f_price f);
     Booking.notes := Some (f_notes f);
     Booking.external_source := None;
     Booking.external_uid := None;
     Booking.created_at := Booking.created_at b;
     Booking.updated_at := now |}.

(** The form passes the two checks of the handlers. *)
Definition valid_form (f : form) : Prop :=
  f_guest_name f <> "" /\ f_check_in f < f_check_out f.

(** [b] carries the provenance pair of the feed for the key [u]. *)
Definition has_provenance (u : string) (b : Booking.t) : Prop :=
  Booking.external_source b = Some ICal.provider_tag
  /\ Booking.external_uid b = Some u.

(** The event has both a start and an end. *)
Definition dated (ev : ICal.Event) : Prop :=
  ICal.begin ev <> None /\ ICal.end_ ev <> None.

(** [b] is the booking the import makes of [ev] for [room]. *)
Definition imported_from (room : string) (ev : ICal.Event) (b : Booking.t) : Prop :=
  Booking.room b = Some room
  /\ Booking.status b = Some "Confermata"
  /\ Booking.source b = Some "Booking"
  /\ Booking.guests b = Some 2
  /\ Booking.price b = Some 0%float
  /\ Booking.notes b = Some "Import iCal"
  /\ has_provenance (ICal.event_uid room ev) b
  /\ Some (Booking.check_in b) = option_map ICal.arrow_date (ICal.begin ev)
  /\ Some (Booking.check_out b) = option_map ICal.arrow_date (ICal.end_ ev).

(** The feed of [url] cannot be fetched, or cannot be parsed. *)
Definition sync_fails (requests_get : string -> option string)
    (Calendar : string -> option (list ICal.Event)) (url : string) : Prop :=
  requests_get url = None
  \/ exists text, requests_get url = Some text /\ Calendar text = None.

(** The nullable columns of [new] whose key is missing from [data] hold
    NULL. *)
Definition omitted_are_null (data : dict) (new : Booking.t) : Prop :=
  (d_email data = Absent -> Booking.email new = None)
  /\ (d_phone data = Absent -> Booking.phone new = None)
  /\ (d_source data = Absent -> Booking.source new = None)
  /\ (d_room data = Absent -> Booking.room new = None)
  /\ (d_status data = Absent -> Booking.status new = None)
  /\ (d_guests data = Absent -> Booking.guests new = None)
  /\ (d_price data = Absent -> Booking.price new = None)
  /\ (d_notes data = Absent -> Booking.notes new = None)
  /\ (d_external_source data = Absent -> Booking.external_source new = None)
  /\ (d_external_uid data = Absent -> Booking.external_uid new = None).

(** [q] and [m] are the same text up to the case of ASCII letters. *)
Fixpoint ci_equal (q m : string) : bool :=
  match q, m with
  | EmptyString, EmptyString => true
  | String a q', String c m' => Sql.same_char a c && ci_equal q' m'
  | _, _ => false
  end.

(** [q] occurs in [t] as a substring, up to the case of ASCII letters. *)
Definition contains_ci (q t : string) : Prop :=
  exists pre mid post, t = (pre ++ mid ++ post)%string /\ ci_equal q mid = true.

(** The same, as a test. *)
Fixpoint contains_cib (q t : string) : bool :=
  ICal.ci_prefix q t ||
  match t with
  | EmptyString => false
  | String _ t' => contains_cib q t'
  end.

(** No character of [q] is a LIKE wildcard. *)
Fixpoint literal (q : string) : bool :=
  match q with
  | EmptyString => true
  | String c q' => negb (Ascii.eqb c "%") && negb (Ascii.eqb c "_") && literal q'
  end.

(** One of the four searched columns of [b] has a text with [P]. *)
Definition some_field (P : string -> Prop) (b : Booking.t) : Prop :=
  P (Booking.guest_name b)
  \/ (exists s, Booking.email b = Some s /\ P s)
  \/ (exists s, Booking.phone b = Some s /\ P s)
  \/ (exists s, Booking.notes b = Some s /\ P s).

(** The text filter as the query has it: [col LIKE '%q%'] on one of the
    four columns. *)
Definition like_search (q : string) (b : Booking.t) : Prop :=
  some_field (fun s => Sql.like_match ("%" ++ q ++ "%") s = true) b.

(** The text filter as the specification words it. *)
Definition text_search (q : string) (b : Booking.t) : Prop :=
  some_field (contains_ci q) b.

(** The rows a query with these arguments is to return. *)
Definition selected (start end_ : option date) (status room search : option string)
    (b : Booking.t) : Prop :=
  (forall s, start = Some s -> Booking.check_out b > s)
  /\ (forall e, end_ = Some e -> Booking.check_in b < e)
  /\ (forall v, status = Some v -> v <> "" -> v <> "Tutte" -> Booking.status b = Some v)
  /\ (forall v, room = Some v -> v <> "" -> v <> "Tutte" -> Booking.room b = Some v)
  /\ (forall q, search = Some q -> q <> "" -> like_search q b).

(** The order of [ORDER BY check_in ASC]. *)
Definition check_in_le (a b : Booking.t) : Prop :=
  Booking.check_in a <= Booking.check_in b.

(** [b] occupies the night of day [d]: from [check_in] to the day before
    [check_out]. *)
Definition covers_night (b : Booking.t) (d : date) : Prop :=
  Booking.check_in b <= d <= Booking.check_out b - 1.

(** The booking marks the cell of day [d] and column [room] of a grid
    with the columns [cols]. *)
Definition marks (cols : list string) (d : date) (room : string) (b : Booking.t) : bool :=
  match Booking.room b with
  | Some r =>
      mem_text r cols
      && mem_date d (date_range (Booking.check_in b) (Booking.check_out b - 1))
      && String.eqb room r
  | None => false
  end.

(** The primary key: no two rows of [bookings] have the same [id]. *)
Definition unique_ids (st : store) : Prop :=
  NoDup (map Booking.id (bookings st)).

(** The dict binds the three keys [insert_booking] cannot do without. *)
Definition has_required (data : dict) : Prop :=
  get (d_guest_name data) <> None
  /\ get (d_check_in data) <> None
  /\ get (d_check_out data) <> None.

(** The number of guests, when the dict gives one, is an integer SQLite
    can hold: binding a larger one raises OverflowError. *)
Definition guests_fit (data : dict) : Prop :=
  forall g, get (d_guests data) = Some g -> - 2 ^ 63 <= g < 2 ^ 63.

(** The price, when the dict gives one, is a number SQLite gives back as
    it was: not NaN, which it stores as NULL, and not the negative zero,
    which it stores as 0.0. *)
Definition price_kept (data : dict) : Prop :=
  forall p, get (d_price data) = Some p ->
            PrimFloat.is_nan p = false
            /\ (PrimFloat.is_zero p = true -> PrimFloat.get_sign p = false).

(** [row] holds what [insert_booking] stores for [data] at [now]: the
    columns from the dict, 1 guest and price 0 when their keys are
    missing, both timestamps [now]. *)
Definition stored_from (data : dict) (now : timestamp) (row : Booking.t) : Prop :=
  Some (Booking.guest_name row) = get (d_guest_name data)
  /\ Booking.email row = get (d_email data)
  /\ Booking.phone row = get (d_phone data)
  /\ Booking.source row = get (d_source data)
  /\ Booking.room row = get (d_room data)
  /\ Booking.status row = get (d_status data)
  /\ Some (Booking.check_in row) = get (d_check_in data)
  /\ Some (Booking.check_out row) = get (d_check_out data)
  /\ Booking.guests row = get_default (d_guests data) 1
  /\ Booking.price row = get_default (d_price data) 0%float
  /\ Booking.notes row = get (d_notes data)
  /\ Booking.external_source row = get (d_external_source data)
  /\ Booking.external_uid row = get (d_external_uid data)
  /\ Booking.created_at row = now
  /\ Booking.updated_at row = now.

(** The booking has a guest name and at least one night. *)
Definition valid_stay (b : Booking.t) : Prop :=
  Booking.guest_name b <> "" /\ Booking.check_in b < Booking.check_out b.

(** The character [c] occurs in [s]. *)
Definition occurs (c : ascii) (s : string) : Prop :=
  In c (list_ascii_of_string s).

(** No token of [parse_guest_from_summary] starts anywhere in [s], in
    any case. *)
Definition token_free (s : string) : Prop :=
  forall pre suf, s = (pre ++ suf)%string ->
                  find (fun tok => ICal.ci_prefix tok suf) ICal.tokens = None.

(** The same, as a test: at every place of [s]. *)
Fixpoint token_freeb (s : string) : bool :=
  match find (fun tok => ICal.ci_prefix tok s) ICal.tokens with
  | Some _ => false
  | None =>
      match s with
      | EmptyString => true
      | String _ s' => token_freeb s'
      end
  end.

(** The key under which the feed import would find the booking, if it
    has one. *)
Definition provenance_key (b : Booking.t) : list string :=
  match Booking.external_source b, Booking.external_uid b with
  | Some s, Some u => if String.eqb s ICal.provider_tag then [u] else []
  | _, _ => []
  end.

Definition provenance_keys (rows : list Booking.t) : list string :=
  flat_map provenance_key rows.

(** No two bookings carry the same provenance pair of the feed. *)
Definition unique_provenance (st : store) : Prop :=
  NoDup (provenance_keys (bookings st)).

(** The events the feed of [url] holds. *)
Definition feed_events (requests_get : string -> option string)
    (Calendar : string -> option (list ICal.Event))
    (url : string) (events : list ICal.Event) : Prop :=
  exists text, requests_get url = Some text /\ Calendar text = Some events.

(** Every event with both dates that a second run meets for a room of
    [map] carries the key of an event with both dates that the first
    run met for that room.  Each run has its own download and its own
    parse. *)
Definition keys_repeat
    (requests_get1 : string -> option string)
    (Calendar1 : string -> option (list ICal.Event))
    (requests_get2 : string -> option string)
    (Calendar2 : string -> option (list ICal.Event))
    (map : list (string * string)) : Prop :=
  forall r u events2 ev2,
    In (r, u) map -> feed_events requests_get2 Calendar2 u events2 ->
    In ev2 events2 -> dated ev2 ->
    exists events1 ev1,
      feed_events requests_get1 Calendar1 u events1
      /\ In ev1 events1 /\ dated ev1
      /\ ICal.event_uid r ev1 = ICal.event_uid r ev2.

(** No room has two endpoints: [room] is the primary key of the table. *)
Definition unique_rooms (st : store) : Prop :=
  NoDup (map fst (ical_endpoints st)).

(** * Examples: stores, dicts, forms and a feed *)

(** A booking of Mario Rossi, for the examples. *)
Definition example_row (i : Z) (room status : string) (ci co : date) : Booking.t :=
  {| Booking.id := i;
     Booking.guest_name := "Mario Rossi";
     Booking.email := Some "Mario.Rossi@example.com";
     Booking.phone := None;
     Booking.source := Some "Diretta";
     Booking.room := Some room;
     Booking.status := Some status;
     Booking.check_in := ci;
     Booking.check_out := co;
     Booking.guests := Some 2;
     Booking.price := Some 0%float;
     Booking.notes := None;
     Booking.external_source := None;
     Booking.external_uid := None;
     Booking.created_at := 0;
     Booking.updated_at := 0 |}.

(** A store with two bookings of R1: days 1 to 5, and a cancelled one
    from day 6 to day 9. *)
Definition example_store : store :=
  {| bookings := [example_row 1 "R1" "Confermata" 1 5;
                  example_row 2 "R1" "Annullata" 6 9];
     sqlite_sequence := 2;
     ical_endpoints := [] |}.

(** A dict with every key but [notes] and the provenance pair. *)
Definition example_data : dict :=
  {| d_guest_name := Present (Some "Anna Bianchi");
     d_email := Present (Some "anna@example.com");
     d_phone := Present None;
     d_source := Present (Some "Airbnb");
     d_room := Present (Some "R1");
     d_status := Present (Some "In attesa");
     d_check_in := Present (Some 2);
     d_check_out := Present (Some 4);
     d_guests := Present (Some 3);
     d_price := Present (Some 120%float);
     d_notes := Absent;
     d_external_source := Absent;
     d_external_uid := Absent |}.

(** A stay that conflicts with booking 1 of the example store. *)
Definition example_form : form :=
  {| f_guest_name := "Luca Verdi";
     f_email := "";
     f_phone := "";
     f_source := "Diretta";
     f_room := "R1";
     f_status := "Confermata";
     f_check_in := 4;
     f_check_out := 6;
     f_guests := 2;
     f_price := 80%float;
     f_notes := "" |}.

(** A feed with three events: one with its own identifier, one without
    an end, one without an identifier. *)
Definition example_events : list ICal.Event :=
  [ {| ICal.uid := Some "abc@booking.com";
       ICal.begin := Some {| ICal.arrow_date := 10; ICal.arrow_str := "2024-06-10T00:00:00+00:00" |};
       ICal.end_ := Some {| ICal.arrow_date := 12; ICal.arrow_str := "2024-06-12T00:00:00+00:00" |};
       ICal.name := Some "Reservation #77 Rossi" |};
    {| ICal.uid := Some "open@booking.com";
       ICal.begin := Some {| ICal.arrow_date := 20; ICal.arrow_str := "2024-06-20T00:00:00+00:00" |};
       ICal.end_ := None;
       ICal.name := None |};
    {| ICal.uid := None;
       ICal.begin := Some {| ICal.arrow_date := 14; ICal.arrow_str := "d14" |};
       ICal.end_ := Some {| ICal.arrow_date := 15; ICal.arrow_str := "d15" |};
       ICal.name := Some "CLOSED - Not available" |} ].

(** A network where one url answers with a feed, one with a text that is
    no calendar, and any other fails. *)
Definition example_requests_get (url : string) : option string :=
  if String.eqb url "https://ical.example/r1.ics" then Some "BEGIN:VCALENDAR"
  else if String.eqb url "https://ical.example/r2.ics" then Some "<html>"
  else None.

(** A parser that knows the one feed. *)
Definition example_Calendar (text : string) : option (list ICal.Event) :=
  if String.eqb text "BEGIN:VCALENDAR" then Some example_events else None.

(** The feed of a room that is closed from day 10 to day 12: one
    VEVENT with DTSTART, DTEND and SUMMARY and no UID line.  [ics]
    gives such an event the identifier [uid_gen()], a random one, when
    it builds it, so the text parsed twice gives the event twice, each
    time under another identifier, never [None] and never empty. *)
Definition event_without_uid (random_uid : string) : ICal.Event :=
  {| ICal.uid := Some random_uid;
     ICal.begin := Some {| ICal.arrow_date := 10;
                           ICal.arrow_str := "2024-06-10T00:00:00+00:00" |};
     ICal.end_ := Some {| ICal.arrow_date := 12;
                          ICal.arrow_str := "2024-06-12T00:00:00+00:00" |};
     ICal.name := Some "CLOSED - Not available" |}.

(** The parse of the first run. *)
Definition first_parse (text : string) : option (list ICal.Event) :=
  if String.eqb text "BEGIN:VCALENDAR"
  then Some [event_without_uid "0b5e7a52-8c1f-4a57-9d0e-3f6f1c2a9b11@0b5e.org"]
  else None.

(** The parse of the second run, of the same text. *)
Definition second_parse (text : string) : option (list ICal.Event) :=
  if String.eqb text "BEGIN:VCALENDAR"
  then Some [event_without_uid "d41c90e6-2b7a-4f0c-8a35-6e9b7f10c4d2@d41c.org"]
  else None.

(** R1 has the endpoint of the example feed; no booking yet. *)
Definition store_with_endpoint : store :=
  {| bookings := [];
     sqlite_sequence := 0;
     ical_endpoints := [("R1", "https://ical.example/r1.ics")] |}.

(** The caller leaves [check_in] out. *)
Definition example_partial : dict :=
  {| d_guest_name := Present (Some "Anna Bianchi");
     d_email := Present (Some "anna@example.com");
     d_phone := Absent;
     d_source := Present (Some "Airbnb");
     d_room := Present (Some "R1");
     d_status := Present (Some "In attesa");
     d_check_in := Absent;
     d_check_out := Present (Some 4);
     d_guests := Present (Some 3);
     d_price := Present (Some 120%float);
     d_notes := Absent;
     d_external_source := Absent;
     d_external_uid := Absent |}.

(** The example store after the example feed was imported for R1: the
    bookings 3 and 4 come from the feed. *)
Definition imported_store : store :=
  fst (fst (ICal.import_ics_for_room example_requests_get example_Calendar
              "R1" "https://ical.example/r1.ics" (fun _ => 50) example_store)).

(** The first event of the example feed. *)
Definition example_event : ICal.Event :=
  {| ICal.uid := Some "abc@booking.com";
     ICal.begin := Some {| ICal.arrow_date := 10;
                           ICal.arrow_str := "2024-06-10T00:00:00+00:00" |};
     ICal.end_ := Some {| ICal.arrow_date := 12;
                          ICal.arrow_str := "2024-06-12T00:00:00+00:00" |};
     ICal.name := Some "Reservation #77 Rossi" |}.

(** One booking of R1 that arrives on day 3. *)
Definition arrival_on_last_day : store :=
  {| bookings := [example_row 1 "R1" "Confermata" 3 5];
     sqlite_sequence := 1;
     ical_endpoints := [] |}.

(** One booking of R1 that stays from day 2 to day 5. *)
Definition stay_beyond_period : store :=
  {| bookings := [example_row 1 "R1" "Confermata" 2 5];
     sqlite_sequence := 1;
     ical_endpoints := [] |}.

(** One cancelled booking of R1 for the nights of the days 1 and 2. *)
Definition cancelled_stay : store :=
  {| bookings := [example_row 1 "R1" "Annullata" 1 3];
     sqlite_sequence := 1;
     ical_endpoints := [("R1", "https://ical.example/old.ics")] |}.

(** A database with no booking and no endpoint. *)
Definition empty_store : store :=
  {| bookings := []; sqlite_sequence := 0; ical_endpoints := [] |}.

(** * Properties *)

(** ** The overlap detector *)

Lemma holds_and (a b : Sql.tv) :
  Sql.holds (Sql.tv_and a b) = true <-> Sql.holds a = true /\ Sql.holds b = true.
Proof.
  destruct a as [[|]|], b as [[|]|]; cbn; intuition congruence.
Qed.

Lemma holds_or (a b : Sql.tv) :
  Sql.holds (Sql.tv_or a b) = true <-> Sql.holds a = true \/ Sql.holds b = true.
Proof.
  destruct a as [[|]|], b as [[|]|]; cbn; intuition congruence.
Qed.

Lemma holds_eq_text (col : option string) (p : string) :
  Sql.holds (Sql.eq_text col p) = true <-> col = Some p.
Proof.
  destruct col as [s|]; cbn.
  - destruct (String.eqb_spec s p); split; congruence.
  - split; congruence.
Qed.

Lemma holds_ne_text (col : option string) (p : string) :
  Sql.holds (Sql.ne_text col p) = true <-> exists s, col = Some s /\ s <> p.
Proof.
  destruct col as [s|]; cbn.
  - destruct (String.eqb_spec s p); cbn; split.
    + congruence.
    + intros (s' & E & N). congruence.
    + intros _. exists s. auto.
    + reflexivity.
  - split; [congruence | intros (s' & E & _); congruence].
Qed.

Lemma holds_some (c : bool) : Sql.holds (Some c) = true <-> c = true.
Proof. destruct c; cbn; intuition congruence. Qed.

Lemma overlap_where_iff check_in check_out room exclude_id b :
  Sql.holds (overlap_where check_in check_out room exclude_id b) = true
  <-> conflicting check_in check_out room exclude_id b.
Proof.
  unfold overlap_where, conflicting.
  destruct exclude_id as [x|];
    rewrite ?holds_and, ?holds_some, holds_eq_text, holds_ne_text,
            Z.ltb_lt, Z.gtb_lt, ?negb_true_iff, ?Z.eqb_neq.
  - split.
    + intros ((((R & S) & I) & O) & X). repeat split; auto; try lia.
      intros y E. injection E as <-. exact X.
    + intros (R & S & X & I & O). repeat split; auto; try lia.
  - split.
    + intros (((R & S) & I) & O). repeat split; auto; try lia.
      intros y E. discriminate E.
    + intros (R & S & _ & I & O). repeat split; auto; try lia.
Qed.

(** C1. For every store and candidate, [has_overlap] lists a booking [b]
    among the conflicts exactly when [b] is a row of the store in the
    same room, whose status is not 'Annullata', whose id is not the
    excluded one when one is given, and with
    [b.check_in < check_out] and [b.check_out > check_in]; and it
    answers true exactly when there is such a booking.  (The comparison
    with 'Annullata' is SQL's: a row whose status is NULL is not compared
    and never conflicts.) *)
Theorem has_overlap_lists_exactly_the_conflicts
    (st : store) (check_in check_out : date) (room : string) (exclude_id : option Z) :
  (forall b,
      In b (snd (has_overlap check_in check_out room exclude_id st))
      <-> In b (bookings st) /\ conflicting check_in check_out room exclude_id b)
  /\ (fst (has_overlap check_in check_out room exclude_id st) = true
      <-> exists b, In b (bookings st)
                    /\ conflicting check_in check_out room exclude_id b).
Proof.
  unfold has_overlap; cbn [fst snd].
  assert (M : forall b,
             In b (filter (fun b => Sql.holds
                             (overlap_where check_in check_out room exclude_id b))
                          (bookings st))
             <-> In b (bookings st) /\ conflicting check_in check_out room exclude_id b).
  { intros b. rewrite filter_In, overlap_where_iff. reflexivity. }
  split; [exact M|].
  rewrite Z.ltb_lt.
  destruct (filter _ (bookings st)) as [|b0 l] eqn:E.
  - cbn. split; [lia|]. intros (b & Hb). apply M in Hb. destruct Hb.
  - split.
    + intros _. exists b0. apply M. left. reflexivity.
    + intros _. cbn [List.length]. lia.
Qed.

(** The example of the specification: with [2024-06-01, 2024-06-05)
    booked (days 1 to 5 here), a stay from day 5 does not conflict and a
    stay from day 4 does; a cancelled booking never does. *)
Example shared_boundary_day_is_no_overlap :
  fst (has_overlap 5 7 "R1" None example_store) = false
  /\ fst (has_overlap 4 6 "R1" None example_store) = true
  /\ fst (has_overlap 4 6 "R1" (Some 1) example_store) = false
  /\ fst (has_overlap 6 9 "R1" None example_store) = false.
Proof. repeat split; reflexivity. Qed.

(** ** [update_booking] *)

Lemma existsb_id_false (booking_id : Z) (rows : list Booking.t) :
  (forall b, In b rows -> Booking.id b <> booking_id) ->
  existsb (fun b => Booking.id b =? booking_id) rows = false.
Proof.
  intros H. destruct (existsb _ rows) eqn:E; [|reflexivity].
  apply existsb_exists in E. destruct E as (b & Hb & Hid).
  apply Z.eqb_eq in Hid. destruct (H b Hb Hid).
Qed.

Lemma existsb_id_true (booking_id : Z) (rows : list Booking.t) :
  (exists b, In b rows /\ Booking.id b = booking_id) ->
  existsb (fun b => Booking.id b =? booking_id) rows = true.
Proof.
  intros (b & Hb & Hid). apply existsb_exists. exists b.
  split; [exact Hb | apply Z.eqb_eq; exact Hid].
Qed.

Lemma updated_row_replaced b g ci co data now :
  get (d_guest_name data) = Some g ->
  get (d_check_in data) = Some ci ->
  get (d_check_out data) = Some co ->
  replaced_by data now b (updated_row b g ci co data now).
Proof.
  intros G I O. unfold replaced_by, updated_row; cbn.
  rewrite G, I, O. repeat split; reflexivity.
Qed.

Lemma Forall2_map_same {A} (R : A -> A -> Prop) (f : A -> A) (l : list A) :
  (forall a, In a l -> R a (f a)) -> Forall2 R l (map f l).
Proof.
  induction l as [|a l IH]; intros H; cbn; constructor.
  - apply H. left. reflexivity.
  - apply IH. intros x Hx. apply H. right. exact Hx.
Qed.

(** C8. [update_booking] with an id that no row of the store has returns
    normally and leaves the store as it was; with an id that is present
    (and a guest name and both dates in the dict) it returns normally,
    the rows with that id have their listed columns replaced from the
    dict and [updated_at] refreshed, every other row and the other table
    are as before, and no row is added or removed. *)
Theorem update_booking_unknown_id_is_silent_noop
    (booking_id : Z) (data : dict) (now : timestamp) (st : store) :
  ((forall b, In b (bookings st) -> Booking.id b <> booking_id) ->
   update_booking booking_id data now st = Ok st)
  /\ ((exists b, In b (bookings st) /\ Booking.id b = booking_id) ->
      get (d_guest_name data) <> None ->
      get (d_check_in data) <> None ->
      get (d_check_out data) <> None ->
      exists st',
        update_booking booking_id data now st = Ok st'
        /\ Forall2 (fun old new =>
                      if Booking.id old =? booking_id
                      then replaced_by data now old new
                      else new = old)
                   (bookings st) (bookings st')
        /\ sqlite_sequence st' = sqlite_sequence st
        /\ ical_endpoints st' = ical_endpoints st).
Proof.
  split.
  - intros H. unfold update_booking.
    rewrite (existsb_id_false _ _ H). reflexivity.
  - intros H G I O. unfold update_booking.
    rewrite (existsb_id_true _ _ H).
    destruct (get (d_guest_name data)) as [g|] eqn:Eg; [|congruence].
    destruct (get (d_check_in data)) as [ci|] eqn:Ei; [|congruence].
    destruct (get (d_check_out data)) as [co|] eqn:Eo; [|congruence].
    cbn. eexists. split; [reflexivity|]. cbn.
    split; [|split; reflexivity].
    apply Forall2_map_same. intros b _.
    destruct (Booking.id b =? booking_id); [|reflexivity].
    apply updated_row_replaced; assumption.
Qed.

Lemma update_booking_unknown_id_witness :
  update_booking 7 example_data 50 example_store = Ok example_store
  /\ exists st',
       update_booking 2 example_data 50 example_store = Ok st'
       /\ Forall2 (fun old new =>
                     if Booking.id old =? 2
                     then replaced_by example_data 50 old new
                     else new = old)
                  (bookings example_store) (bookings st')
       /\ sqlite_sequence st' = sqlite_sequence example_store
       /\ ical_endpoints st' = ical_endpoints example_store.
Proof.
  split.
  - apply (update_booking_unknown_id_is_silent_noop 7 example_data 50 example_store).
    cbn. intros b [<-|[<-|[]]]; cbn; lia.
  - apply (update_booking_unknown_id_is_silent_noop 2 example_data 50 example_store).
    + exists (example_row 2 "R1" "Annullata" 6 9). cbn. auto.
    + cbn. discriminate.
    + cbn. discriminate.
    + cbn. discriminate.
Defined.

(** ** The forms: the overlap is a notice, not a gate *)

Lemma valid_form_tests (f : form) :
  valid_form f ->
  String.eqb (f_guest_name f) "" = false /\ (f_check_out f <=? f_check_in f) = false.
Proof.
  intros [N D]. split.
  - apply String.eqb_neq. exact N.
  - apply Z.leb_gt. exact D.
Qed.

Lemma insert_form_data (f : form) (now : timestamp) (st : store) :
  insert_booking (form_data f) now st
  = Ok (next_rowid st,
        with_bookings st (bookings st ++ [form_row (next_rowid st) f now])
                      (next_rowid st)).
Proof. reflexivity. Qed.

Lemma update_form_data (sel_id : Z) (f : form) (now : timestamp) (st : store) :
  update_booking sel_id (form_data f) now st
  = Ok (with_bookings st
          (map (fun b => if Booking.id b =? sel_id then edited_row b f now else b)
               (bookings st))
          (sqlite_sequence st)).
Proof.
  unfold update_booking. cbn.
  destruct (existsb _ (bookings st)) eqn:E; [reflexivity|].
  destruct st as [rows sq eps]; cbn in *. unfold with_bookings; cbn. f_equal. f_equal.
  induction rows as [|b rows IH]; [reflexivity|].
  cbn in E. apply orb_false_iff in E. destruct E as [E1 E2].
  cbn. rewrite E1. f_equal. apply IH. exact E2.
Qed.

(** C3. For every form that passes the validation (a guest name, and a
    check-out after the check-in), whatever [has_overlap] answers: the
    form for a new booking appends the booking to the store under the
    next id and ends without an exception; the edit form replaces every
    row with the selected id by the edited row, keeps the others, and
    ends without an exception.  The answer of [has_overlap] decides only
    whether the notice is shown. *)
Theorem overlap_never_blocks_create_or_update
    (f : form) (now : timestamp) (sel_id : Z) (st : store) :
  valid_form f ->
  (db (new_booking_form f now st)
   = with_bookings st (bookings st ++ [form_row (next_rowid st) f now]) (next_rowid st)
   /\ raised (new_booking_form f now st) = None
   /\ shown (new_booking_form f now st)
      = overlap_notice (fst (has_overlap (f_check_in f) (f_check_out f) (f_room f) None st))
                       (snd (has_overlap (f_check_in f) (f_check_out f) (f_room f) None st))
                       (f_status f)
        ++ [st_success (Saved (next_rowid st))])
  /\ (db (edit_form sel_id f now st)
      = with_bookings st
          (map (fun b => if Booking.id b =? sel_id then edited_row b f now else b)
               (bookings st))
          (sqlite_sequence st)
      /\ raised (edit_form sel_id f now st) = None
      /\ shown (edit_form sel_id f now st)
         = overlap_notice
             (fst (has_overlap (f_check_in f) (f_check_out f) (f_room f) (Some sel_id) st))
             (snd (has_overlap (f_check_in f) (f_check_out f) (f_room f) (Some sel_id) st))
             (f_status f)
           ++ [st_success Updated]).
Proof.
  intros V. destruct (valid_form_tests f V) as [N D]. split.
  - unfold new_booking_form. rewrite N, D.
    destruct (has_overlap _ _ _ None st) as [overlap conflicts].
    rewrite insert_form_data. cbn. auto.
  - unfold edit_form. rewrite N, D.
    destruct (has_overlap _ _ _ (Some sel_id) st) as [overlap conflicts].
    rewrite update_form_data. cbn. auto.
Qed.

Lemma overlap_never_blocks_witness :
  fst (has_overlap 4 6 "R1" None example_store) = true
  /\ bookings (db (new_booking_form example_form 50 example_store))
     = bookings example_store ++ [form_row 3 example_form 50]
  /\ bookings (db (edit_form 2 example_form 50 example_store))
     = [example_row 1 "R1" "Confermata" 1 5;
        edited_row (example_row 2 "R1" "Annullata" 6 9) example_form 50].
Proof.
  assert (V : valid_form example_form).
  { split; [discriminate | reflexivity]. }
  pose proof (overlap_never_blocks_create_or_update example_form 50 2 example_store V)
    as [[C _] [E _]].
  split; [reflexivity|]. split.
  - rewrite C. reflexivity.
  - rewrite E. reflexivity.
Defined.

(** ** The feed import *)

Module ICalFacts.
Import ICal.

Lemma already_imported_iff (u : string) (st : store) :
  already_imported u st = true
  <-> exists b, In b (bookings st) /\ has_provenance u b.
Proof.
  unfold already_imported, has_provenance. rewrite existsb_exists.
  split; intros (b & Hb & H); exists b; (split; [exact Hb|]).
  - apply holds_and in H. rewrite !holds_eq_text in H. exact H.
  - apply holds_and. rewrite !holds_eq_text. exact H.
Qed.

Lemma already_imported_false (u : string) (st : store) :
  already_imported u st = false
  <-> forall b, In b (bookings st) -> ~ has_provenance u b.
Proof.
  rewrite <- not_true_iff_false, already_imported_iff. split.
  - intros N b Hb P. apply N. exists b. auto.
  - intros N (b & Hb & P). exact (N b Hb P).
Qed.

Lemma already_imported_grows (u : string) (st st' : store) (new : list Booking.t) :
  bookings st' = bookings st ++ new ->
  already_imported u st = true -> already_imported u st' = true.
Proof.
  intros E. rewrite !already_imported_iff. intros (b & Hb & P).
  exists b. split; [|exact P]. rewrite E. apply in_or_app. left. exact Hb.
Qed.

Lemma dated_dec (ev : Event) :
  {s : Arrow & {e : Arrow | begin ev = Some s /\ end_ ev = Some e}}
  + {begin ev = None \/ end_ ev = None}.
Proof.
  destruct (begin ev) as [s|]; [|right; left; reflexivity].
  destruct (end_ ev) as [e|]; [|right; right; reflexivity].
  left. exists s, e. split; reflexivity.
Qed.

Lemma import_event_undated room now ev acc :
  begin ev = None \/ end_ ev = None -> import_event room now ev acc = acc.
Proof.
  intros H. unfold import_event. destruct acc as [st created].
  destruct H as [H|H]; rewrite H; cbn; [reflexivity|].
  destruct (begin ev); reflexivity.
Qed.

Lemma import_event_known room now ev st created :
  already_imported (event_uid room ev) st = true ->
  import_event room now ev (st, created) = (st, created).
Proof.
  intros H. unfold import_event. rewrite H.
  destruct (begin ev), (end_ ev); reflexivity.
Qed.

Lemma import_event_fresh room now ev st created s e :
  begin ev = Some s -> end_ ev = Some e ->
  already_imported (event_uid room ev) st = false ->
  import_event room now ev (st, created)
  = (with_bookings st
       (bookings st ++
        [imported_row (next_rowid st)
           (parse_guest_from_summary (match name ev with Some n => n | None => "" end))
           room (arrow_date s) (arrow_date e) (event_uid room ev) now])
       (next_rowid st),
     created + 1).
Proof.
  intros B E H. unfold import_event. rewrite B, E, H. reflexivity.
Qed.

Lemma imported_row_from room ev s e lastrowid guest now :
  begin ev = Some s -> end_ ev = Some e ->
  imported_from room ev
    (imported_row lastrowid guest room (arrow_date s) (arrow_date e)
                  (event_uid room ev) now).
Proof.
  intros B E. unfold imported_from, has_provenance. rewrite B, E. cbn.
  repeat split; reflexivity.
Qed.

(** A turn appends at most one row, and counts it. *)
Lemma import_event_appends room now ev st created :
  exists new,
    bookings (fst (import_event room now ev (st, created))) = bookings st ++ new
    /\ snd (import_event room now ev (st, created)) = created + Z.of_nat (List.length new)
    /\ ical_endpoints (fst (import_event room now ev (st, created))) = ical_endpoints st
    /\ Forall (fun b => dated ev
                        /\ already_imported (event_uid room ev) st = false
                        /\ imported_from room ev b) new.
Proof.
  destruct (dated_dec ev) as [(s & e & B & E)|U].
  - destruct (already_imported (event_uid room ev) st) eqn:K.
    + rewrite import_event_known by exact K. exists []. cbn.
      rewrite app_nil_r. repeat split; auto; lia.
    + rewrite (import_event_fresh _ _ _ _ _ s e B E K). eexists [_]. cbn.
      split; [reflexivity|]. split; [lia|]. split; [reflexivity|].
      constructor; [|constructor]. split; [split; congruence|].
      split; [reflexivity|]. apply imported_row_from; assumption.
  - rewrite import_event_undated by exact U. exists []. cbn.
    rewrite app_nil_r. repeat split; auto; lia.
Qed.

(** The loop appends rows, one per counted event; each of them is the
    import of a dated event of the feed whose key no booking of the
    store carried before the run. *)
Lemma import_events_appends room clock events :
  forall i st created,
  exists new,
    bookings (fst (import_events room clock i events (st, created))) = bookings st ++ new
    /\ snd (import_events room clock i events (st, created))
       = created + Z.of_nat (List.length new)
    /\ ical_endpoints (fst (import_events room clock i events (st, created)))
       = ical_endpoints st
    /\ Forall (fun b => exists ev,
                   In ev events /\ dated ev
                   /\ already_imported (event_uid room ev) st = false
                   /\ imported_from room ev b) new.
Proof.
  induction events as [|ev events IH]; intros i st created; cbn [import_events].
  - exists []. cbn. rewrite app_nil_r. repeat split; auto; lia.
  - destruct (import_event_appends room (clock i) ev st created)
      as (new1 & B1 & C1 & E1 & F1).
    destruct (import_event room (clock i) ev (st, created)) as [st1 c1] eqn:S1.
    cbn [fst snd] in B1, C1, E1.
    destruct (IH (S i) st1 c1) as (new2 & B2 & C2 & E2 & F2).
    exists (new1 ++ new2). rewrite app_assoc, <- B1. split; [exact B2|].
    split; [rewrite C2, C1, length_app; lia|].
    split; [congruence|].
    apply Forall_app. split.
    + eapply Forall_impl; [|exact F1]. cbn. intros b (D & K & I).
      exists ev. split; [left; reflexivity|]. auto.
    + eapply Forall_impl; [|exact F2]. cbn. intros b (ev' & In' & D & K & I).
      exists ev'. split; [right; exact In'|]. split; [exact D|]. split; [|exact I].
      destruct (already_imported (event_uid room ev') st) eqn:K0; [|reflexivity].
      rewrite (already_imported_grows _ st st1 new1 B1 K0) in K. discriminate K.
Qed.

(** After the loop every dated event of the feed has its booking. *)
Lemma import_events_covers room clock events :
  forall i st created ev,
    In ev events -> dated ev ->
    already_imported (event_uid room ev)
      (fst (import_events room clock i events (st, created))) = true.
Proof.
  induction events as [|e0 events IH]; intros i st created ev HIn D; [destruct HIn|].
  cbn [import_events].
  destruct (import_event room (clock i) e0 (st, created)) as [st1 c1] eqn:S1.
  destruct HIn as [<-|HIn]; [|apply IH; assumption].
  destruct (import_events_appends room clock events (S i) st1 c1) as (new & B & _).
  apply (already_imported_grows _ st1 _ new B).
  destruct (dated_dec e0) as [(s & e & Bg & En)|U].
  - destruct (already_imported (event_uid room e0) st) eqn:K.
    + rewrite import_event_known in S1 by exact K. congruence.
    + rewrite (import_event_fresh _ _ _ _ _ s e Bg En K) in S1.
      injection S1 as <- _. apply already_imported_iff.
      eexists. split; [cbn; apply in_or_app; right; left; reflexivity|].
      split; reflexivity.
  - destruct D as [D1 D2]. destruct U; contradiction.
Qed.

(** When every dated event already has its booking the loop changes
    nothing. *)
Lemma import_events_all_known room clock events :
  forall i st created,
    (forall ev, In ev events -> dated ev ->
                already_imported (event_uid room ev) st = true) ->
    import_events room clock i events (st, created) = (st, created).
Proof.
  induction events as [|e0 events IH]; intros i st created H; [reflexivity|].
  cbn [import_events].
  assert (S1 : import_event room (clock i) e0 (st, created) = (st, created)).
  { destruct (dated_dec e0) as [(s & e & Bg & En)|U].
    - apply import_event_known. apply H; [left; reflexivity|]. split; congruence.
    - apply import_event_undated. exact U. }
  rewrite S1. apply IH. intros ev HIn D. apply H; [right; exact HIn | exact D].
Qed.

End ICalFacts.

Section Feed.
Import ICal ICalFacts.

Variable requests_get : string -> option string.
Variable Calendar : string -> option (list Event).

(** C2. The import is not idempotent for an event that has no UID in
    the feed.  The feed of R1 holds one such event, from day 10 to
    day 12, and does not change; the import for R1 runs twice, each
    run with its own parse of the text.  The first run creates one
    booking and returns 1.  The second run returns 1 again, not 0: the
    table then holds two bookings of R1 for the same days, both with
    the provider tag, each under the identifier its parse gave the
    event.  The key made of the room and the two instants is used by
    neither run. *)
Theorem second_sync_duplicates_an_event_without_uid :
  let url := "https://ical.example/r1.ics" in
  let first :=
    import_ics_for_room example_requests_get first_parse "R1" url
      (fun _ => 50) empty_store in
  let second :=
    import_ics_for_room example_requests_get second_parse "R1" url
      (fun _ => 60) (fst (fst first)) in
  snd (fst first) = 1
  /\ List.length (bookings (fst (fst first))) = 1%nat
  /\ snd (fst second) = 1
  /\ map (fun b => (Booking.room b, Booking.check_in b, Booking.check_out b,
                    Booking.external_source b))
         (bookings (fst (fst second)))
     = [(Some "R1", 10, 12, Some provider_tag);
        (Some "R1", 10, 12, Some provider_tag)]
  /\ map Booking.external_uid (bookings (fst (fst second)))
     = [Some "0b5e7a52-8c1f-4a57-9d0e-3f6f1c2a9b11@0b5e.org";
        Some "d41c90e6-2b7a-4f0c-8a35-6e9b7f10c4d2@d41c.org"]
  /\ snd second = [http_get url].
Proof.
  vm_compute. repeat split.
Qed.


Lemma sync_rooms_app (m1 m2 : list (string * string)) clock acc :
  sync_rooms requests_get Calendar (m1 ++ m2) clock acc
  = sync_rooms requests_get Calendar m2 clock
      (sync_rooms requests_get Calendar m1 clock acc).
Proof.
  revert acc. induction m1 as [|[r u] m1 IH]; intros acc; [reflexivity|].
  cbn. destruct acc as [[st c] log].
  destruct (import_ics_for_room requests_get Calendar r u (clock r) st) as [[st' n] log'].
  apply IH.
Qed.

(** What was shown so far has no part in what the loop does next. *)
Lemma sync_rooms_log_irrelevant (m : list (string * string)) clock st c log1 log2 :
  fst (sync_rooms requests_get Calendar m clock (st, c, log1))
  = fst (sync_rooms requests_get Calendar m clock (st, c, log2)).
Proof.
  revert st c log1 log2. induction m as [|[r u] m IH]; intros st c log1 log2;
    [reflexivity|].
  cbn. destruct (import_ics_for_room requests_get Calendar r u (clock r) st)
    as [[st' n] log'].
  apply IH.
Qed.

(** C7. When the download fails the import of the room makes one
    request, reports the download error, creates nothing and returns
    0; when the text does not parse it makes one request, reports the
    parsing error, creates nothing and returns 0.  In a run over
    several rooms, the store and the total are those of the run
    without the room whose sync fails. *)
Theorem failed_sync_is_abandoned_and_isolated
    (room url : string) (clock : nat -> timestamp) (st : store) :
  (requests_get url = None ->
   import_ics_for_room requests_get Calendar room url clock st
   = (st, 0, [http_get url; st_error (DownloadFailed room)]))
  /\ (forall text,
         requests_get url = Some text -> Calendar text = None ->
         import_ics_for_room requests_get Calendar room url clock st
         = (st, 0, [http_get url; st_error (ParsingFailed room)]))
  /\ (forall before after clocks,
         sync_fails requests_get Calendar url ->
         fst (sync_rooms requests_get Calendar
                (before ++ (room, url) :: after) clocks (st, 0, []))
         = fst (sync_rooms requests_get Calendar
                  (before ++ after) clocks (st, 0, []))).
Proof.
  split; [|split].
  - intros H. unfold import_ics_for_room. rewrite H. reflexivity.
  - intros text H P. unfold import_ics_for_room. rewrite H, P. reflexivity.
  - intros before after clocks F. rewrite !sync_rooms_app.
    destruct (sync_rooms requests_get Calendar before clocks (st, 0, []))
      as [[st1 c1] log1].
    cbn [sync_rooms].
    assert (E : exists log',
               import_ics_for_room requests_get Calendar room url (clocks room) st1
               = (st1, 0, log')).
    { unfold import_ics_for_room. destruct F as [F|(text & F & P)].
      - rewrite F. eexists. reflexivity.
      - rewrite F, P. eexists. reflexivity. }
    destruct E as (log' & ->). rewrite Z.add_0_r.
    apply sync_rooms_log_irrelevant.
Qed.

End Feed.

Example example_import :
  let run := ICal.import_ics_for_room example_requests_get example_Calendar
               "R1" "https://ical.example/r1.ics" (fun _ => 50) example_store in
  snd (fst run) = 2
  /\ map (fun b => (Booking.id b, Booking.guest_name b, Booking.external_uid b,
                    Booking.check_in b, Booking.check_out b))
         (bookings (fst (fst run)))
     = [(1, "Mario Rossi", None, 1, 5);
        (2, "Mario Rossi", None, 6, 9);
        (3, "77 Rossi", Some "abc@booking.com", 10, 12);
        (4, "CLOSED - Not available", Some "R1-d14-d15", 14, 15)].
Proof. split; reflexivity. Qed.


Lemma failed_sync_witness :
  ICal.import_ics_for_room example_requests_get example_Calendar
    "R3" "https://ical.example/r3.ics" (fun _ => 50) example_store
  = (example_store, 0,
     [http_get "https://ical.example/r3.ics"; st_error (DownloadFailed "R3")])
  /\ ICal.import_ics_for_room example_requests_get example_Calendar
       "R2" "https://ical.example/r2.ics" (fun _ => 50) example_store
     = (example_store, 0,
        [http_get "https://ical.example/r2.ics"; st_error (ParsingFailed "R2")])
  /\ fst (ICal.sync_rooms example_requests_get example_Calendar
            ([("R3", "https://ical.example/r3.ics")]
             ++ ("R2", "https://ical.example/r2.ics")
             :: [("R1", "https://ical.example/r1.ics")])
            (fun _ _ => 50) (example_store, 0, []))
     = fst (ICal.sync_rooms example_requests_get example_Calendar
              ([("R3", "https://ical.example/r3.ics")]
               ++ [("R1", "https://ical.example/r1.ics")])
              (fun _ _ => 50) (example_store, 0, [])).
Proof.
  split; [|split].
  - apply (failed_sync_is_abandoned_and_isolated example_requests_get example_Calendar
             "R3" "https://ical.example/r3.ics" (fun _ => 50) example_store).
    reflexivity.
  - apply (failed_sync_is_abandoned_and_isolated example_requests_get example_Calendar
             "R2" "https://ical.example/r2.ics" (fun _ => 50) example_store
             ) with (text := "<html>"); reflexivity.
  - apply (failed_sync_is_abandoned_and_isolated example_requests_get example_Calendar
             "R2" "https://ical.example/r2.ics" (fun _ => 50) example_store).
    right. exists "<html>". split; reflexivity.
Defined.

(** ** What an UPDATE does with the keys the caller leaves out *)

Lemma replaced_by_omitted data now old new :
  replaced_by data now old new -> omitted_are_null data new.
Proof.
  unfold replaced_by, omitted_are_null.
  intros (_ & _ & _ & _ & E1 & E2 & E3 & E4 & E5 & _ & _ & E6 & E7 & E8 & E9 & E10).
  repeat split; intros A;
    [rewrite E1|rewrite E2|rewrite E3|rewrite E4|rewrite E5
    |rewrite E6|rewrite E7|rewrite E8|rewrite E9|rewrite E10];
    rewrite A; reflexivity.
Qed.

Lemma existsb_id_false_inv (booking_id : Z) (rows : list Booking.t) (b : Booking.t) :
  existsb (fun b => Booking.id b =? booking_id) rows = false ->
  In b rows -> Booking.id b <> booking_id.
Proof.
  intros E Hb I. assert (T : existsb (fun b => Booking.id b =? booking_id) rows = true).
  { apply existsb_id_true. exists b. auto. }
  congruence.
Qed.

Lemma update_booking_rows booking_id data now st st' :
  update_booking booking_id data now st = Ok st' ->
  Forall2 (fun old new =>
             Booking.id new = Booking.id old
             /\ Booking.created_at new = Booking.created_at old
             /\ (Booking.id old = booking_id -> replaced_by data now old new)
             /\ (Booking.id old <> booking_id -> new = old))
          (bookings st) (bookings st').
Proof.
  unfold update_booking.
  destruct (existsb _ (bookings st)) eqn:E.
  - destruct (get (d_guest_name data)) as [g|] eqn:Eg; [|discriminate].
    destruct (get (d_check_in data)) as [ci|] eqn:Ei; [|discriminate].
    destruct (get (d_check_out data)) as [co|] eqn:Eo; [|discriminate].
    cbn. intros [= <-]. cbn. apply Forall2_map_same. intros b _.
    destruct (Z.eqb_spec (Booking.id b) booking_id) as [I|I].
    + split; [reflexivity|]. split; [reflexivity|]. split; [|intros N; contradiction].
      intros _. apply updated_row_replaced; assumption.
    + split; [reflexivity|]. split; [reflexivity|]. split; [intros N; contradiction|].
      reflexivity.
  - intros [= <-]. rewrite <- (map_id (bookings st)) at 2.
    apply Forall2_map_same. intros b Hb.
    split; [reflexivity|]. split; [reflexivity|]. split; [|reflexivity].
    intros I. destruct (existsb_id_false_inv _ _ b E Hb I).
Qed.

(** With the key [check_in] left out, the UPDATE of an existing booking
    is refused by the NOT NULL constraint: no value is overwritten, the
    stored [check_in] is kept. *)
Lemma update_booking_without_check_in_is_refused :
  d_check_in example_partial = Absent
  /\ In (example_row 1 "R1" "Confermata" 1 5) (bookings example_store)
  /\ update_booking 1 example_partial 50 example_store
     = Raise (IntegrityError "bookings.check_in")
  /\ forall st', update_booking 1 example_partial 50 example_store <> Ok st'.
Proof.
  split; [reflexivity|]. split; [left; reflexivity|]. split; [reflexivity|].
  intros st'. discriminate.
Qed.

Section Provenance.
Import ICal ICalFacts.

Variable requests_get : string -> option string.
Variable Calendar : string -> option (list Event).

Lemma edit_form_clears_provenance sel_id f now st b :
  valid_form f ->
  In b (bookings (db (edit_form sel_id f now st))) ->
  (Booking.id b = sel_id
   /\ Booking.external_source b = None /\ Booking.external_uid b = None)
  \/ (Booking.id b <> sel_id /\ In b (bookings st)).
Proof.
  intros V. destruct (valid_form_tests f V) as [N D].
  unfold edit_form. rewrite N, D.
  destruct (has_overlap _ _ _ (Some sel_id) st) as [overlap conflicts].
  rewrite update_form_data. cbn. rewrite in_map_iff. intros (b0 & E & Hb0).
  destruct (Z.eqb_spec (Booking.id b0) sel_id) as [I|I]; subst b.
  - left. cbn. auto.
  - right. auto.
Qed.

(** A dated event whose key no booking carries is imported by the run. *)
Lemma import_events_imports_fresh room clock events ev st :
  In ev events -> dated ev ->
  already_imported (event_uid room ev) st = false ->
  exists new b,
    bookings (fst (import_events room clock 0 events (st, 0))) = bookings st ++ new
    /\ snd (import_events room clock 0 events (st, 0)) = Z.of_nat (List.length new)
    /\ In b new
    /\ has_provenance (event_uid room ev) b
    /\ Booking.room b = Some room.
Proof.
  intros HIn D K.
  destruct (import_events_appends room clock events 0 st 0) as (new & B & C & _ & F).
  pose proof (import_events_covers room clock events 0 st 0 ev HIn D) as Cov.
  apply already_imported_iff in Cov. destruct Cov as (b & Hb & P).
  rewrite B in Hb. apply in_app_or in Hb. destruct Hb as [Hb|Hb].
  - destruct (proj1 (already_imported_false _ _) K b Hb P).
  - exists new, b. split; [exact B|]. split; [lia|]. split; [exact Hb|].
    split; [exact P|].
    rewrite Forall_forall in F. destruct (F b Hb) as (ev' & _ & _ & _ & I).
    apply I.
Qed.

(** C9, as the code has it. An UPDATE that goes through writes every
    listed column of the rows with that id from the dict, NULL for a key
    that is missing, so a nullable column the caller leaves out is
    overwritten with NULL; [id] and [created_at] are never changed and
    the other rows stay.  Leaving out [guest_name], [check_in] or
    [check_out] of an existing booking does not overwrite anything: the
    NOT NULL constraint refuses the UPDATE.  The edit form never passes
    the provenance pair, so after a saved edit the booking has none, and
    a later run of the feed import, finding no booking with the key of
    the event, imports it again as a new booking of the room. *)
Theorem update_booking_nulls_omitted_nullable_columns
    (booking_id : Z) (data : dict) (now : timestamp) (st : store) :
  (forall st',
      update_booking booking_id data now st = Ok st' ->
      Forall2 (fun old new =>
                 Booking.id new = Booking.id old
                 /\ Booking.created_at new = Booking.created_at old
                 /\ (Booking.id old = booking_id ->
                     replaced_by data now old new /\ omitted_are_null data new)
                 /\ (Booking.id old <> booking_id -> new = old))
              (bookings st) (bookings st'))
  /\ ((exists b, In b (bookings st) /\ Booking.id b = booking_id) ->
      get (d_guest_name data) = None \/ get (d_check_in data) = None
      \/ get (d_check_out data) = None ->
      exists column,
        update_booking booking_id data now st = Raise (IntegrityError column))
  /\ (forall f b,
         valid_form f ->
         In b (bookings (db (edit_form booking_id f now st))) ->
         Booking.id b = booking_id ->
         Booking.external_source b = None /\ Booking.external_uid b = None)
  /\ (forall f room url text events ev clock,
         valid_form f ->
         requests_get url = Some text -> Calendar text = Some events ->
         In ev events -> dated ev ->
         (forall b, In b (bookings st) -> has_provenance (event_uid room ev) b ->
                    Booking.id b = booking_id) ->
         let edited := db (edit_form booking_id f now st) in
         let run := import_ics_for_room requests_get Calendar room url clock edited in
         1 <= snd (fst run)
         /\ exists new b,
              bookings (fst (fst run)) = bookings edited ++ new
              /\ In b new
              /\ has_provenance (event_uid room ev) b
              /\ Booking.room b = Some room).
Proof.
  split; [|split; [|split]].
  - intros st' U. apply update_booking_rows in U.
    eapply Forall2_impl; [|exact U]. cbn.
    intros old new (I & C & R & O).
    split; [exact I|]. split; [exact C|]. split; [|exact O].
    intros E. split; [exact (R E)|].
    exact (replaced_by_omitted _ _ _ _ (R E)).
  - intros H N. unfold update_booking. rewrite (existsb_id_true _ _ H).
    destruct (get (d_guest_name data)) as [g|]; [|eexists; reflexivity].
    destruct (get (d_check_in data)) as [ci|]; [|eexists; reflexivity].
    destruct (get (d_check_out data)) as [co|]; [|eexists; reflexivity].
    destruct N as [N|[N|N]]; discriminate N.
  - intros f b V Hb I.
    destruct (edit_form_clears_provenance _ _ _ _ _ V Hb) as [(_ & S & U)|(N & _)].
    + auto.
    + contradiction.
  - intros f room url text events ev clock V HG HC HIn D Only. cbv zeta.
    assert (K : already_imported (event_uid room ev)
                  (db (edit_form booking_id f now st)) = false).
    { apply already_imported_false. intros b Hb [P1 P2].
      destruct (edit_form_clears_provenance _ _ _ _ _ V Hb) as [(_ & S & _)|(N & Hb0)].
      - congruence.
      - apply N. apply Only; [exact Hb0 | split; assumption]. }
    unfold import_ics_for_room. rewrite HG, HC.
    destruct (import_events_imports_fresh room clock events ev _ HIn D K)
      as (new & b & B & C & Hb & P & R).
    destruct (import_events room clock 0 events (db (edit_form booking_id f now st), 0))
      as [st1 n1].
    cbn [fst snd] in *. split.
    + destruct new as [|x new]; [destruct Hb|]. rewrite C. cbn [List.length]. lia.
    + exists new, b. auto.
Qed.

End Provenance.

Lemma update_booking_nulls_witness :
  (exists column,
      update_booking 1 example_partial 50 example_store = Raise (IntegrityError column))
  /\ 1 <= snd (fst (ICal.import_ics_for_room example_requests_get example_Calendar
                      "R1" "https://ical.example/r1.ics" (fun _ => 70)
                      (db (edit_form 3 example_form 60 imported_store)))).
Proof.
  split.
  - apply (update_booking_nulls_omitted_nullable_columns
             example_requests_get example_Calendar 1 example_partial 50 example_store).
    + exists (example_row 1 "R1" "Confermata" 1 5). split; [left|]; reflexivity.
    + right. left. reflexivity.
  - apply (update_booking_nulls_omitted_nullable_columns
             example_requests_get example_Calendar 3 example_data 60 imported_store)
      with (text := "BEGIN:VCALENDAR") (events := example_events) (ev := example_event).
    + split; [discriminate | reflexivity].
    + reflexivity.
    + reflexivity.
    + left. reflexivity.
    + split; discriminate.
    + intros b Hb [P1 P2]. vm_compute in Hb.
      destruct Hb as [<-|[<-|[<-|[<-|[]]]]]; try reflexivity; discriminate P2.
Defined.

(** ** LIKE and the text filter *)

Lemma ci_prefix_iff (q t : string) :
  ICal.ci_prefix q t = true
  <-> exists mid post, t = (mid ++ post)%string /\ ci_equal q mid = true.
Proof.
  revert t. induction q as [|a q IH]; intros t; cbn.
  - split; [|reflexivity]. intros _. exists EmptyString, t. split; reflexivity.
  - destruct t as [|c t].
    + split; [discriminate|]. intros (mid & post & E & C).
      destruct mid; [discriminate C | discriminate E].
    + rewrite andb_true_iff, IH. split.
      * intros (S & mid & post & E & C). exists (String c mid), post.
        cbn. rewrite S, C, E. split; reflexivity.
      * intros (mid & post & E & C). destruct mid as [|d mid]; [discriminate C|].
        cbn in E, C. injection E as -> ->. apply andb_true_iff in C.
        destruct C as [S C]. split; [exact S|]. exists mid, post. auto.
Qed.

Lemma contains_cib_iff (q t : string) :
  contains_cib q t = true <-> contains_ci q t.
Proof.
  unfold contains_ci. induction t as [|c t IH].
  - cbn. rewrite orb_false_r, ci_prefix_iff. split.
    + intros (mid & post & E & C). exists EmptyString, mid, post. auto.
    + intros (pre & mid & post & E & C). destruct pre; [|discriminate E].
      exists mid, post. auto.
  - cbn [contains_cib]. rewrite orb_true_iff, ci_prefix_iff, IH. split.
    + intros [(mid & post & E & C)|(pre & mid & post & E & C)].
      * exists EmptyString, mid, post. auto.
      * exists (String c pre), mid, post. cbn. rewrite E. auto.
    + intros (pre & mid & post & E & C). destruct pre as [|d pre].
      * left. exists mid, post. auto.
      * right. cbn in E. injection E as _ ->. exists pre, mid, post. auto.
Qed.

(** One step of the run a [%] stands for. *)
Lemma like_match_percent (p t : string) :
  Sql.like_match (String "%" p) t
  = Sql.like_match p t ||
    match t with
    | EmptyString => false
    | String _ t' => Sql.like_match (String "%" p) t'
    end.
Proof. destruct t; reflexivity. Qed.

Lemma like_match_percent_iff (p t : string) :
  Sql.like_match (String "%" p) t = true
  <-> exists pre rest, t = (pre ++ rest)%string /\ Sql.like_match p rest = true.
Proof.
  induction t as [|c t IH]; rewrite like_match_percent.
  - rewrite orb_false_r. split.
    + intros H. exists EmptyString, EmptyString. auto.
    + intros (pre & rest & E & H). destruct pre; [|discriminate E].
      cbn in E. subst rest. exact H.
  - rewrite orb_true_iff, IH. split.
    + intros [H|(pre & rest & E & H)].
      * exists EmptyString, (String c t). auto.
      * exists (String c pre), rest. cbn. rewrite E. auto.
    + intros (pre & rest & E & H). destruct pre as [|d pre].
      * left. cbn in E. subst rest. exact H.
      * right. cbn in E. injection E as _ ->. exists pre, rest. auto.
Qed.

Lemma like_match_literal_iff (q p t : string) :
  literal q = true ->
  (Sql.like_match (q ++ p) t = true
   <-> exists mid rest, t = (mid ++ rest)%string /\ ci_equal q mid = true
                        /\ Sql.like_match p rest = true).
Proof.
  revert t. induction q as [|a q IH]; intros t L.
  - cbn. split.
    + intros H. exists EmptyString, t. auto.
    + intros (mid & rest & E & C & H). destruct mid; [|discriminate C].
      cbn in E. subst rest. exact H.
  - cbn in L. apply andb_true_iff in L. destruct L as [L Lq].
    apply andb_true_iff in L. destruct L as [L1 L2].
    apply negb_true_iff in L1, L2.
    cbn [append Sql.like_match]. rewrite L1, L2. cbn [orb].
    destruct t as [|c t].
    + split; [discriminate|]. intros (mid & rest & E & C & _).
      destruct mid; [discriminate C | discriminate E].
    + rewrite andb_true_iff, (IH t Lq). split.
      * intros (S & mid & rest & E & C & H). exists (String c mid), rest.
        cbn. rewrite S, C, E. auto.
      * intros (mid & rest & E & C & H). destruct mid as [|d mid]; [discriminate C|].
        cbn in E, C. injection E as -> ->. apply andb_true_iff in C.
        destruct C as [S C]. split; [exact S|]. exists mid, rest. auto.
Qed.

Lemma like_match_only_percent (t : string) : Sql.like_match "%" t = true.
Proof.
  apply like_match_percent_iff. exists t, EmptyString. split; [|reflexivity].
  induction t as [|c t IH]; cbn; [reflexivity | rewrite <- IH; reflexivity].
Qed.

(** For a search text without wildcards, [LIKE '%q%'] is "contains [q]". *)
Lemma like_literal_contains (q t : string) :
  literal q = true ->
  (Sql.like_match ("%" ++ q ++ "%") t = true <-> contains_ci q t).
Proof.
  intros L. unfold contains_ci. cbn [append]. rewrite like_match_percent_iff. split.
  - intros (pre & rest & E & H). apply (like_match_literal_iff q "%" rest L) in H.
    destruct H as (mid & post & E' & C & _). exists pre, mid, post.
    rewrite E, E'. auto.
  - intros (pre & mid & post & E & C). exists pre, (mid ++ post)%string.
    split; [exact E|]. apply (like_match_literal_iff q "%" _ L).
    exists mid, post. split; [reflexivity|]. split; [exact C|].
    apply like_match_only_percent.
Qed.

(** ** [fetch_bookings] *)

Lemma holds_like (col : option string) (pattern : string) :
  Sql.holds (Sql.like col pattern) = true
  <-> exists s, col = Some s /\ Sql.like_match pattern s = true.
Proof.
  destruct col as [s|]; cbn.
  - destruct (Sql.like_match pattern s) eqn:E; split.
    + intros _. exists s. auto.
    + reflexivity.
    + discriminate.
    + intros (s' & [= <-] & H). congruence.
  - split; [discriminate|]. intros (s & E & _). discriminate E.
Qed.

Lemma clause_text (flt col : option string) (c : Sql.tv) :
  Sql.holds
    match flt with
    | Some v =>
        if truthy flt && negb (String.eqb v "Tutte")
        then Sql.tv_and c (Sql.eq_text col v) else c
    | None => c
    end = true
  <-> Sql.holds c = true
      /\ (forall v, flt = Some v -> v <> "" -> v <> "Tutte" -> col = Some v).
Proof.
  destruct flt as [v|]; cbn.
  - destruct (String.eqb_spec v ""); cbn.
    + split; [intros H; split; [exact H|] | tauto]. intros w [= <-]. contradiction.
    + destruct (String.eqb_spec v "Tutte"); cbn.
      * split; [intros H; split; [exact H|] | tauto]. intros w [= <-]. contradiction.
      * rewrite holds_and, holds_eq_text. split.
        -- intros [H E]. split; [exact H|]. intros w [= <-] _ _. exact E.
        -- intros [H E]. split; [exact H|]. apply E; auto.
  - split; [intros H; split; [exact H|] | tauto]. discriminate.
Qed.

Lemma clause_search (search : option string) (b : Booking.t) (c : Sql.tv) :
  Sql.holds
    match search with
    | Some q =>
        if truthy search then
          let like := ("%" ++ q ++ "%")%string in
          Sql.tv_and c
            (Sql.tv_or (Sql.tv_or (Sql.tv_or
               (Sql.like (Some (Booking.guest_name b)) like)
               (Sql.like (Booking.email b) like))
               (Sql.like (Booking.phone b) like))
               (Sql.like (Booking.notes b) like))
        else c
    | None => c
    end = true
  <-> Sql.holds c = true
      /\ (forall q, search = Some q -> q <> "" -> like_search q b).
Proof.
  destruct search as [q|]; cbn [truthy].
  - destruct (String.eqb_spec q ""); cbn [negb].
    + split; [intros H; split; [exact H|] | tauto]. intros w [= <-]. contradiction.
    + cbv zeta. rewrite holds_and, !holds_or, !holds_like.
      assert (G : (exists s, Some (Booking.guest_name b) = Some s
                             /\ Sql.like_match ("%" ++ q ++ "%") s = true)
                  <-> Sql.like_match ("%" ++ q ++ "%") (Booking.guest_name b) = true).
      { split; [intros (s & [= <-] & H); exact H | intros H; eexists; eauto]. }
      rewrite G. unfold like_search, some_field. split.
      * intros [H M]. split; [exact H|]. intros w [= <-] _. tauto.
      * intros [H M]. split; [exact H|]. specialize (M q eq_refl n). tauto.
  - split; [intros H; split; [exact H|] | tauto]. discriminate.
Qed.

Lemma fetch_where_iff start end_ status room search b :
  Sql.holds (fetch_where start end_ status room search b) = true
  <-> selected start end_ status room search b.
Proof.
  unfold fetch_where, selected. cbv zeta.
  rewrite clause_search, !clause_text.
  destruct start as [s|], end_ as [e|];
    rewrite ?holds_and, ?holds_some, ?Z.gtb_lt, ?Z.ltb_lt.
  all: split.
  all: intros H; decompose [and] H; clear H.
  all: repeat match goal with
         | H : forall x, Some ?s = Some x -> _ |- _ => specialize (H s eq_refl)
         end.
  all: repeat split; auto; try discriminate; try lia.
  all: intros x [= <-]; lia.
Qed.

Lemma insert_by_check_in_In x b l :
  In x (insert_by_check_in b l) <-> x = b \/ In x l.
Proof.
  induction l as [|y l IH]; cbn.
  - intuition congruence.
  - destruct (Booking.check_in b <=? Booking.check_in y); cbn.
    + intuition congruence.
    + rewrite IH. intuition congruence.
Qed.

Lemma order_by_check_in_In x l :
  In x (order_by_check_in l) <-> In x l.
Proof.
  induction l as [|y l IH]; cbn; [reflexivity|].
  rewrite insert_by_check_in_In, IH. intuition congruence.
Qed.

Lemma insert_by_check_in_sorted b l :
  Sorted check_in_le l -> Sorted check_in_le (insert_by_check_in b l).
Proof.
  induction 1 as [|y l S IH H]; cbn.
  - repeat constructor.
  - destruct (Z.leb_spec (Booking.check_in b) (Booking.check_in y)) as [L|L].
    + repeat constructor; assumption.
    + constructor; [exact IH|].
      destruct H as [|z l H]; cbn.
      * constructor. unfold check_in_le. lia.
      * destruct (Booking.check_in b <=? Booking.check_in z);
          constructor; unfold check_in_le; [lia | exact H].
Qed.

Lemma order_by_check_in_sorted l : Sorted check_in_le (order_by_check_in l).
Proof.
  induction l as [|y l IH]; cbn; [constructor|].
  apply insert_by_check_in_sorted. exact IH.
Qed.

Lemma fetch_bookings_In start end_ status room search st b :
  In b (fetch_bookings start end_ status room search st)
  <-> In b (bookings st) /\ selected start end_ status room search b.
Proof.
  unfold fetch_bookings. rewrite order_by_check_in_In, filter_In, fetch_where_iff.
  reflexivity.
Qed.

(** For a search text without wildcards the filter of the query is the
    filter of the specification. *)
Lemma like_search_literal (q : string) (b : Booking.t) :
  literal q = true -> (like_search q b <-> text_search q b).
Proof.
  intros L. unfold like_search, text_search, some_field.
  rewrite (like_literal_contains q _ L).
  assert (E : forall col : option string,
             (exists s, col = Some s /\ Sql.like_match ("%" ++ q ++ "%") s = true)
             <-> (exists s, col = Some s /\ contains_ci q s)).
  { intros col. split; intros (s & C & H); exists s; (split; [exact C|]);
      apply (like_literal_contains q s L); exact H. }
  rewrite !E. reflexivity.
Qed.

Lemma text_search_example_row (q : string) (i : Z) (room status : string) (ci co : date) :
  text_search q (example_row i room status ci co)
  <-> contains_cib q "Mario Rossi" = true
      \/ contains_cib q "Mario.Rossi@example.com" = true.
Proof.
  rewrite !contains_cib_iff. unfold text_search, some_field.
  cbn [example_row Booking.guest_name Booking.email Booking.phone Booking.notes].
  split.
  - intros [H|[(s & [= <-] & H)|[(s & E & _)|(s & E & _)]]];
      [left; exact H | right; exact H | discriminate E | discriminate E].
  - intros [H|H]; [left; exact H | right; left; eexists; split; [reflexivity|exact H]].
Qed.

(** With the search text "ma_io" the query returns a booking in none of
    whose fields "ma_io" occurs: the [_] stands for the "r" of "Mario". *)
Lemma fetch_bookings_underscore_is_no_substring :
  In (example_row 1 "R1" "Confermata" 1 5)
     (fetch_bookings None None None None (Some "ma_io") example_store)
  /\ ~ text_search "ma_io" (example_row 1 "R1" "Confermata" 1 5).
Proof.
  split.
  - vm_compute. left. reflexivity.
  - rewrite text_search_example_row. vm_compute. intros [H|H]; discriminate H.
Qed.

(** C5, as the code has it. A booking is returned exactly when it is in
    the store and passes every filter that is applied: [check_out] after
    the start, [check_in] before the end, the status, the room, and the
    search text; a status, room or search filter that is [None] or empty,
    and a status or room filter 'Tutte', is not applied.  The search text
    [q] is used as the pattern [%q%] of LIKE on the guest name, the
    email, the phone and the notes; when [q] has no [%] and no [_] this
    is: [q] occurs in one of them as a substring, up to the case of ASCII
    letters.  The result is in ascending order of [check_in]. *)
Theorem fetch_bookings_filters_conjunctively
    (start end_ : option date) (status room search : option string) (st : store) :
  (forall b,
      In b (fetch_bookings start end_ status room search st)
      <-> In b (bookings st) /\ selected start end_ status room search b)
  /\ Sorted check_in_le (fetch_bookings start end_ status room search st)
  /\ (forall q b, literal q = true -> (like_search q b <-> text_search q b)).
Proof.
  split; [|split].
  - intros b. apply fetch_bookings_In.
  - apply order_by_check_in_sorted.
  - apply like_search_literal.
Qed.

Lemma fetch_bookings_filters_witness :
  In (example_row 1 "R1" "Confermata" 1 5)
     (fetch_bookings (Some 0) (Some 3) (Some "Confermata") (Some "R1") (Some "mario")
                     example_store).
Proof.
  destruct (fetch_bookings_filters_conjunctively
              (Some 0) (Some 3) (Some "Confermata") (Some "R1") (Some "mario")
              example_store) as (M & _ & T).
  apply M. split; [left; reflexivity|].
  repeat split.
  - intros s [= <-]. reflexivity.
  - intros e [= <-]. reflexivity.
  - intros v [= <-] _ _. reflexivity.
  - intros v [= <-] _ _. reflexivity.
  - intros q [= <-] _. apply T; [reflexivity|].
    apply text_search_example_row. left. reflexivity.
Defined.

Lemma like_match_any_run (t : string) : Sql.like_match "%%%" t = true.
Proof.
  apply like_match_percent_iff. exists EmptyString, t. split; [reflexivity|].
  apply like_match_percent_iff. exists EmptyString, t. split; [reflexivity|].
  apply like_match_only_percent.
Qed.

Lemma like_match_one_character (t : string) :
  t <> "" -> Sql.like_match "%_%" t = true.
Proof.
  intros N. apply like_match_percent_iff. exists EmptyString, t.
  split; [reflexivity|]. destruct t as [|c t]; [contradiction|].
  cbn [Sql.like_match]. cbn [Ascii.eqb Bool.eqb orb andb].
  apply like_match_only_percent.
Qed.

(** C10. The search text goes into the LIKE pattern as it is, so its
    [%] and [_] are wildcards: with the search text "%" the query
    returns every booking of the store, the same rows as with no search
    at all, also one in none of whose fields a "%" occurs; with "_" it
    returns every booking with a guest name.  For a search text with no
    [%] and no [_] the query returns, of the bookings it returns without
    a search text, exactly those in one of whose four fields the text
    occurs as a substring, up to the case of ASCII letters. *)
Theorem search_text_wildcards_are_not_literal :
  (forall st,
      fetch_bookings None None None None (Some "%") st
      = fetch_bookings None None None None None st)
  /\ (forall st b,
         In b (fetch_bookings None None None None (Some "%") st) <-> In b (bookings st))
  /\ (exists st b,
         In b (fetch_bookings None None None None (Some "%") st)
         /\ ~ text_search "%" b)
  /\ (forall st b,
         In b (bookings st) -> Booking.guest_name b <> "" ->
         In b (fetch_bookings None None None None (Some "_") st))
  /\ (forall start end_ status room q st b,
         literal q = true ->
         (In b (fetch_bookings start end_ status room (Some q) st)
          <-> In b (fetch_bookings start end_ status room None st)
              /\ text_search q b)).
Proof.
  assert (A : forall b, Sql.holds (fetch_where None None None None (Some "%") b) = true).
  { intros b. apply fetch_where_iff. repeat split; try discriminate.
    intros q [= <-] _. left. apply like_match_any_run. }
  split; [|split; [|split; [|split]]].
  - intros st. unfold fetch_bookings. f_equal. apply filter_ext.
    intros b. rewrite A. reflexivity.
  - intros st b. unfold fetch_bookings.
    rewrite order_by_check_in_In, filter_In, A. tauto.
  - exists example_store, (example_row 1 "R1" "Confermata" 1 5). split.
    + vm_compute. left. reflexivity.
    + rewrite text_search_example_row. vm_compute. intros [H|H]; discriminate H.
  - intros st b Hb N. apply fetch_bookings_In. split; [exact Hb|].
    repeat split; try discriminate.
    intros q [= <-] _. left. apply like_match_one_character. exact N.
  - intros start end_ status room q st b L. rewrite !fetch_bookings_In.
    unfold selected. split.
    + intros (Hb & S & E & St & R & Q). split.
      * split; [exact Hb|]. repeat split; auto. discriminate.
      * destruct (String.eqb_spec q "") as [->|N].
        -- left. exists "", "", (Booking.guest_name b). split; reflexivity.
        -- apply (like_search_literal q b L). apply (Q q eq_refl N).
    + intros ((Hb & S & E & St & R & _) & T). split; [exact Hb|].
      repeat split; auto. intros q0 [= <-] _. apply (like_search_literal q b L). exact T.
Qed.

Lemma search_text_wildcards_witness :
  In (example_row 2 "R1" "Annullata" 6 9)
     (fetch_bookings None None None None (Some "_") example_store)
  /\ (In (example_row 2 "R1" "Annullata" 6 9)
         (fetch_bookings None None None (Some "R1") (Some "ROSSI") example_store)
      <-> In (example_row 2 "R1" "Annullata" 6 9)
             (fetch_bookings None None None (Some "R1") None example_store)
          /\ text_search "ROSSI" (example_row 2 "R1" "Annullata" 6 9)).
Proof.
  destruct search_text_wildcards_are_not_literal as (_ & _ & _ & U & L).
  split.
  - apply U; [right; left; reflexivity | discriminate].
  - apply L. reflexivity.
Defined.

(** ** The occupancy grid *)

(** C4 at two inputs, the period being the days 1 to 3 and R1 the only
    requested room.  A booking of R1 that arrives on day 3 occupies the
    night of day 3, but the query behind the grid asks for
    [check_in < period_end] and does not return it: the cell of day 3 is
    0.  A booking of R1 from day 2 to day 5 is returned, and marking its
    nights 2, 3 and 4 raises, day 4 being no row of the grid: there is
    no grid. *)
Theorem occupancy_matrix_last_day_and_overhang :
  (covers_night (example_row 1 "R1" "Confermata" 3 5) 3
   /\ occupancy_matrix 1 3 ["R1"] arrival_on_last_day
      = Ok {| index := [1; 2; 3]; columns := ["R1"]; cells := [[0]; [0]; [0]] |}
   /\ (exists mat, occupancy_matrix 1 3 ["R1"] arrival_on_last_day = Ok mat
                   /\ cell mat 3 "R1" = Some 0))
  /\ (covers_night (example_row 1 "R1" "Confermata" 2 5) 2
      /\ occupancy_matrix 1 3 ["R1"] stay_beyond_period
         = Raise (KeyError "not in index")).
Proof.
  split.
  - split; [unfold covers_night; cbn; lia|]. split; [reflexivity|].
    eexists. split; reflexivity.
  - split; [unfold covers_night; cbn; lia | reflexivity].
Qed.

(** The example of the specification: a booking [2024-06-01,
    2024-06-03) (days 1 to 3) over the period of the days 1 to 3. *)
Example occupancy_of_a_stay_inside_the_period :
  occupancy_matrix 1 3 ["R1"; "R2"]
    {| bookings := [example_row 1 "R1" "Annullata" 1 3];
       sqlite_sequence := 1;
       ical_endpoints := [] |}
  = Ok {| index := [1; 2; 3];
          columns := ["R1"; "R2"];
          cells := [[1; 0]; [1; 0]; [0; 0]] |}.
Proof. reflexivity. Qed.

(** The missed last day, for every store: a booking that arrives on the
    last day of the period is not among the rows the grid is built
    from. *)
Lemma arrival_on_period_end_is_not_fetched
    (period_start period_end : date) (st : store) (b : Booking.t) :
  Booking.check_in b = period_end ->
  ~ In b (fetch_bookings (Some period_start) (Some period_end) None None None st).
Proof.
  intros E H. apply fetch_bookings_In in H. destruct H as (_ & _ & L & _).
  specialize (L period_end eq_refl). lia.
Qed.

(** *** The grid when it is built *)

Lemma combine_map_combine {A B} (g : A * B -> B) (l : list A) (c : list B) :
  combine l (map g (combine l c)) = map (fun lr => (fst lr, g lr)) (combine l c).
Proof.
  revert c. induction l as [|a l IH]; intros [|b c]; cbn; f_equal; auto.
Qed.

Lemma find_map_same_test {A} (q : A -> bool) (h : A -> A) (l : list A) :
  (forall x, q (h x) = q x) ->
  find q (map h l) = option_map h (find q l).
Proof.
  intros H. induction l as [|a l IH]; cbn; [reflexivity|].
  rewrite H. destruct (q a); [reflexivity | exact IH].
Qed.

Lemma in_date_range (a b d : date) : In d (date_range a b) <-> a <= d <= b.
Proof.
  unfold date_range. rewrite in_map_iff. split.
  - intros (i & <- & Hi). apply in_seq in Hi. lia.
  - intros H. exists (Z.to_nat (d - a)). split; [lia|]. apply in_seq. lia.
Qed.

Lemma mem_date_In (d : date) (l : list date) : mem_date d l = true <-> In d l.
Proof.
  unfold mem_date. rewrite existsb_exists. split.
  - intros (x & Hx & E). apply Z.eqb_eq in E. subst x. exact Hx.
  - intros H. exists d. split; [exact H | apply Z.eqb_refl].
Qed.

Lemma mem_text_In (s : string) (l : list string) : mem_text s l = true <-> In s l.
Proof.
  unfold mem_text. rewrite existsb_exists. split.
  - intros (x & Hx & E). apply String.eqb_eq in E. subst x. exact Hx.
  - intros H. exists s. split; [exact H | apply String.eqb_refl].
Qed.

(** What [mat.loc[rng, room] = v] leaves in each cell. *)
Lemma cell_loc_set rng r v mat mat' :
  loc_set rng r v mat = Ok mat' ->
  index mat' = index mat /\ columns mat' = columns mat
  /\ forall d room,
       cell mat' d room
       = match cell mat d room with
         | Some old => Some (if mem_date d rng && String.eqb room r then v else old)
         | None => None
         end.
Proof.
  unfold loc_set. destruct (forallb _ rng); [|discriminate].
  intros [= <-]. cbn. split; [reflexivity|]. split; [reflexivity|].
  intros d room. unfold cell. cbn [index columns cells].
  rewrite combine_map_combine.
  rewrite (find_map_same_test (fun lr => fst lr =? d)) by reflexivity.
  destruct (find (fun lr => fst lr =? d) (combine (index mat) (cells mat)))
    as [[l row]|] eqn:F; cbn [option_map]; [|reflexivity].
  apply find_some in F. destruct F as [_ F]. cbn in F. apply Z.eqb_eq in F. subst l.
  cbn [fst snd]. destruct (mem_date d rng); cbn [andb].
  - rewrite combine_map_combine.
    rewrite (find_map_same_test (fun cv => String.eqb (fst cv) room)) by reflexivity.
    destruct (find (fun cv => String.eqb (fst cv) room) (combine (columns mat) row))
      as [[c old]|] eqn:G; cbn [option_map]; [|reflexivity].
    apply find_some in G. destruct G as [_ G]. cbn in G. apply String.eqb_eq in G.
    subst c. reflexivity.
  - destruct (find (fun cv => String.eqb (fst cv) room) (combine (columns mat) row))
      as [[c old]|]; reflexivity.
Qed.

Lemma fold_mark_nights_raise (df : list Booking.t) (e : exn) :
  fold_left mark_nights df (Raise e) = Raise e.
Proof. induction df as [|b df IH]; [reflexivity | exact IH]. Qed.

Lemma mark_nights_ok (mat : DataFrame) (b : Booking.t) :
  mark_nights (Ok mat) b
  = match Booking.room b with
    | Some r =>
        if mem_text r (columns mat)
        then loc_set (date_range (Booking.check_in b) (Booking.check_out b - 1)) r 1 mat
        else Ok mat
    | None => Ok mat
    end.
Proof. reflexivity. Qed.

Lemma fold_mark_nights_cells (df : list Booking.t) :
  forall mat0 mat,
    fold_left mark_nights df (Ok mat0) = Ok mat ->
    index mat = index mat0 /\ columns mat = columns mat0
    /\ forall d room,
         cell mat d room
         = match cell mat0 d room with
           | Some old =>
               Some (if existsb (marks (columns mat0) d room) df then 1 else old)
           | None => None
           end.
Proof.
  induction df as [|b df IH]; intros mat0 mat.
  - cbn. intros [= <-]. split; [reflexivity|]. split; [reflexivity|].
    intros d room. destruct (cell mat0 d room); reflexivity.
  - cbn [fold_left existsb]. rewrite mark_nights_ok.
    destruct (Booking.room b) as [r|] eqn:R.
    + destruct (mem_text r (columns mat0)) eqn:M.
      * destruct (loc_set _ r 1 mat0) as [mat1|e] eqn:L.
        -- intros H. destruct (IH mat1 mat H) as (I & C & K).
           destruct (cell_loc_set _ _ _ _ _ L) as (I1 & C1 & K1).
           split; [congruence|]. split; [congruence|].
           intros d room. rewrite K, K1, C1.
           assert (Mk : marks (columns mat0) d room b
                        = mem_date d (date_range (Booking.check_in b)
                                                 (Booking.check_out b - 1))
                          && String.eqb room r).
           { unfold marks. rewrite R, M. reflexivity. }
           rewrite Mk. destruct (cell mat0 d room); [|reflexivity].
           destruct (mem_date d _ && String.eqb room r);
             destruct (existsb _ df); reflexivity.
        -- rewrite fold_mark_nights_raise. discriminate.
      * intros H. destruct (IH mat0 mat H) as (I & C & K).
        split; [exact I|]. split; [exact C|].
        intros d room. rewrite K.
        assert (Mk : marks (columns mat0) d room b = false).
        { unfold marks. rewrite R, M. reflexivity. }
        rewrite Mk. reflexivity.
    + intros H. destruct (IH mat0 mat H) as (I & C & K).
      split; [exact I|]. split; [exact C|].
      intros d room. rewrite K.
      assert (Mk : marks (columns mat0) d room b = false).
      { unfold marks. rewrite R. reflexivity. }
      rewrite Mk. reflexivity.
Qed.

Lemma find_in_constant_rows {A B} (eqb : A -> A -> bool) (x : A) (c : B) (l : list A) :
  (forall a, eqb a a = true) ->
  In x l ->
  exists y, find (fun lr => eqb (fst lr) x) (combine l (map (fun _ => c) l)) = Some (y, c).
Proof.
  intros Refl. induction l as [|a l IH]; intros H; [destruct H|].
  cbn. destruct (eqb a x) eqn:E.
  - exists a. reflexivity.
  - destruct H as [->|H]; [rewrite Refl in E; discriminate E | exact (IH H)].
Qed.

(** Before the loop every cell of the grid holds 0. *)
Lemma cell_of_zeros (idx : list date) (rooms : list string) (d : date) (room : string) :
  In d idx -> In room rooms ->
  cell {| index := idx; columns := rooms;
          cells := map (fun _ => map (fun _ => 0) rooms) idx |} d room = Some 0.
Proof.
  intros Hd Hr. unfold cell. cbn [index columns cells].
  destruct (find_in_constant_rows Z.eqb d (map (fun _ : string => 0) rooms) idx
              Z.eqb_refl Hd) as (y & F).
  destruct (find_in_constant_rows String.eqb room 0 rooms String.eqb_refl Hr) as (c & G).
  unfold date in *. rewrite F, G. reflexivity.
Qed.

Lemma marks_iff (cols : list string) (d : date) (room : string) (b : Booking.t) :
  In room cols ->
  (marks cols d room b = true <-> Booking.room b = Some room /\ covers_night b d).
Proof.
  intros Hr. unfold marks, covers_night. destruct (Booking.room b) as [r|].
  - rewrite !andb_true_iff, mem_text_In, mem_date_In, in_date_range, String.eqb_eq.
    split.
    + intros ((_ & N) & ->). auto.
    + intros ([= ->] & N). auto.
  - split; [discriminate | intros [E _]; discriminate E].
Qed.

(** X18. What holds of the grid: when [occupancy_matrix] returns one,
    its rows are the days of the period, its columns the requested
    rooms, and the cell of a day of the period and a requested room is 1
    when one of the fetched bookings (of any status) has that room and
    covers the night, else 0. *)
Lemma occupancy_matrix_cells
    (period_start period_end : date) (rooms : list string) (st : store)
    (mat : DataFrame) :
  occupancy_matrix period_start period_end rooms st = Ok mat ->
  index mat = date_range period_start period_end
  /\ columns mat = rooms
  /\ forall d room,
       period_start <= d <= period_end -> In room rooms ->
       exists v,
         cell mat d room = Some v /\ (v = 0 \/ v = 1)
         /\ (v = 1 <->
             exists b,
               In b (fetch_bookings (Some period_start) (Some period_end)
                                    None None None st)
               /\ Booking.room b = Some room /\ covers_night b d).
Proof.
  unfold occupancy_matrix. cbv zeta. intros H.
  apply fold_mark_nights_cells in H. cbn [index columns] in H.
  destruct H as (I & C & K). split; [exact I|]. split; [exact C|].
  intros d room Hd Hr. rewrite K.
  rewrite cell_of_zeros; [|apply in_date_range; exact Hd | exact Hr].
  destruct (existsb _ _) eqn:E.
  - exists 1. split; [reflexivity|]. split; [right; reflexivity|].
    split; [intros _|reflexivity].
    apply existsb_exists in E. destruct E as (b & Hb & M).
    exists b. split; [exact Hb|]. apply (marks_iff rooms); assumption.
  - exists 0. split; [reflexivity|]. split; [left; reflexivity|].
    split; [discriminate|]. intros (b & Hb & M).
    assert (T : existsb (marks rooms d room)
                  (fetch_bookings (Some period_start) (Some period_end)
                                  None None None st) = true).
    { apply existsb_exists. exists b. split; [exact Hb|].
      apply (marks_iff rooms); assumption. }
    congruence.
Qed.

Lemma fold_mark_nights_result (df : list Booking.t) :
  forall mat0,
    (exists mat, fold_left mark_nights df (Ok mat0) = Ok mat
                 /\ index mat = index mat0 /\ columns mat = columns mat0)
    \/ fold_left mark_nights df (Ok mat0) = Raise (KeyError "not in index").
Proof.
  induction df as [|b df IH]; intros mat0; cbn [fold_left].
  - left. exists mat0. auto.
  - rewrite mark_nights_ok.
    assert (L : forall rng r,
               (exists mat1, loc_set rng r 1 mat0 = Ok mat1
                             /\ index mat1 = index mat0 /\ columns mat1 = columns mat0)
               \/ loc_set rng r 1 mat0 = Raise (KeyError "not in index")).
    { intros rng r. unfold loc_set. destruct (forallb _ rng); [left|right; reflexivity].
      eexists. split; [reflexivity|]. split; reflexivity. }
    destruct (Booking.room b) as [r|]; [|apply IH].
    destruct (mem_text r (columns mat0)); [|apply IH].
    destruct (L (date_range (Booking.check_in b) (Booking.check_out b - 1)) r)
      as [(mat1 & -> & I1 & C1)| ->].
    + destruct (IH mat1) as [(mat & E & I & C)|E]; [left|right; exact E].
      exists mat. split; [exact E|]. split; congruence.
    + right. apply fold_mark_nights_raise.
Qed.

(** X19. The missing grid, for every store: a booking of a requested
    room that the query returns and that has a night outside the period
    (it arrived before the period or stays beyond its last day) leaves
    no grid. *)
Lemma occupancy_matrix_raises_on_overhang
    (period_start period_end : date) (rooms : list string) (st : store)
    (b : Booking.t) (r : string) :
  In b (bookings st) -> Booking.room b = Some r -> In r rooms ->
  (Booking.check_in b < period_start /\ period_start < Booking.check_out b
   /\ Booking.check_in b < period_end)
  \/ (Booking.check_in b < period_end /\ period_end < Booking.check_out b - 1
      /\ period_start < Booking.check_out b) ->
  occupancy_matrix period_start period_end rooms st = Raise (KeyError "not in index").
Proof.
  intros Hb R Hr Out. unfold occupancy_matrix. cbv zeta.
  assert (F : In b (fetch_bookings (Some period_start) (Some period_end)
                                   None None None st)).
  { apply fetch_bookings_In. split; [exact Hb|].
    repeat split; try discriminate; intros x [= <-]; lia. }
  apply in_split in F. destruct F as (l1 & l2 & ->).
  rewrite fold_left_app. cbn [fold_left].
  destruct (fold_mark_nights_result l1
              {| index := date_range period_start period_end;
                 columns := rooms;
                 cells := map (fun _ => map (fun _ => 0) rooms)
                              (date_range period_start period_end) |})
    as [(mat1 & -> & I & C)| ->]; [|apply fold_mark_nights_raise].
  cbn [index columns] in I, C. rewrite mark_nights_ok, R, C.
  rewrite (proj2 (mem_text_In r rooms) Hr).
  assert (L : loc_set (date_range (Booking.check_in b) (Booking.check_out b - 1))
                      r 1 mat1 = Raise (KeyError "not in index")).
  { unfold loc_set.
    destruct (forallb _ (date_range (Booking.check_in b) (Booking.check_out b - 1)))
      eqn:A; [|reflexivity].
    rewrite forallb_forall in A.
    assert (D : exists d, In d (date_range (Booking.check_in b) (Booking.check_out b - 1))
                          /\ ~ period_start <= d <= period_end).
    { destruct Out as [O|O].
      - exists (Booking.check_in b). rewrite in_date_range. split; lia.
      - exists (Booking.check_out b - 1). rewrite in_date_range. split; lia. }
    destruct D as (d & Hd & N). specialize (A d Hd).
    rewrite mem_date_In, I, in_date_range in A. contradiction. }
  rewrite L. apply fold_mark_nights_raise.
Qed.

(** ** The primary key and AUTOINCREMENT *)

Lemma max_rowid_ge (rows : list Booking.t) (b : Booking.t) :
  In b rows -> Booking.id b <= max_rowid rows.
Proof.
  induction rows as [|x rows IH]; intros H; [destruct H|].
  unfold max_rowid in *. cbn [fold_right]. destruct H as [->|H]; [lia|].
  specialize (IH H). lia.
Qed.

Lemma next_rowid_fresh (st : store) (b : Booking.t) :
  In b (bookings st) -> Booking.id b < next_rowid st.
Proof.
  intros H. apply max_rowid_ge in H. unfold next_rowid. lia.
Qed.

Lemma unique_ids_append (st : store) (b : Booking.t) (seq : Z) :
  unique_ids st -> Booking.id b = next_rowid st ->
  unique_ids (with_bookings st (bookings st ++ [b]) seq).
Proof.
  unfold unique_ids. cbn. intros U E. rewrite map_app. cbn.
  apply NoDup_app; [exact U | repeat constructor; intros [] |].
  intros i Hi [<-|[]]. apply in_map_iff in Hi. destruct Hi as (x & Ex & Hx).
  apply next_rowid_fresh in Hx. lia.
Qed.

(** What a successful [insert_booking] returns. *)
Lemma insert_booking_ok data now st n st' :
  insert_booking data now st = Ok (n, st') ->
  n = next_rowid st
  /\ sqlite_sequence st' = n
  /\ ical_endpoints st' = ical_endpoints st
  /\ exists row, bookings st' = bookings st ++ [row] /\ Booking.id row = n.
Proof.
  unfold insert_booking.
  destruct (d_guest_name data) as [|[g|]]; cbn; try discriminate.
  all: destruct (d_check_in data) as [|[ci|]]; cbn; try discriminate.
  all: destruct (d_check_out data) as [|[co|]]; cbn; try discriminate.
  intros [= <- <-]. cbn. repeat split. eexists. split; reflexivity.
Qed.

Lemma update_booking_ids booking_id data now st st' :
  update_booking booking_id data now st = Ok st' ->
  map Booking.id (bookings st') = map Booking.id (bookings st).
Proof.
  intros U. apply update_booking_rows in U.
  induction U as [|old new l l' (I & _) _ IH]; cbn; [reflexivity|].
  rewrite I, IH. reflexivity.
Qed.

(** Taking rows away leaves the ids distinct. *)
Lemma ids_of_filter_distinct (keep : Booking.t -> bool) (rows : list Booking.t) :
  NoDup (map Booking.id rows) -> NoDup (map Booking.id (filter keep rows)).
Proof.
  intros U. induction rows as [|b rows IH]; [constructor|].
  cbn in U. apply NoDup_cons_iff in U. destruct U as [Fresh U].
  cbn [filter]. destruct (keep b); [|exact (IH U)].
  cbn [map]. apply NoDup_cons; [|exact (IH U)].
  rewrite in_map_iff. intros (x & E & Hx). apply filter_In in Hx.
  apply Fresh. rewrite in_map_iff. exists x. tauto.
Qed.

Lemma import_event_unique_ids room now ev st created :
  unique_ids st -> unique_ids (fst (ICal.import_event room now ev (st, created))).
Proof.
  intros U. destruct (ICalFacts.dated_dec ev) as [(s & e & B & E)|N].
  - destruct (ICal.already_imported (ICal.event_uid room ev) st) eqn:K.
    + rewrite ICalFacts.import_event_known by exact K. exact U.
    + rewrite (ICalFacts.import_event_fresh _ _ _ _ _ s e B E K). cbn [fst].
      apply unique_ids_append; [exact U | reflexivity].
  - rewrite ICalFacts.import_event_undated by exact N. exact U.
Qed.

Lemma import_events_unique_ids room clock events :
  forall i st created,
    unique_ids st ->
    unique_ids (fst (ICal.import_events room clock i events (st, created))).
Proof.
  induction events as [|ev events IH]; intros i st created U; [exact U|].
  cbn [ICal.import_events].
  pose proof (import_event_unique_ids room (clock i) ev st created U) as U1.
  destruct (ICal.import_event room (clock i) ev (st, created)) as [st1 c1].
  apply IH. exact U1.
Qed.

Section PrimaryKey.

Variable requests_get : string -> option string.
Variable Calendar : string -> option (list ICal.Event).

Lemma import_ics_unique_ids room url clock st :
  unique_ids st ->
  unique_ids (fst (fst (ICal.import_ics_for_room requests_get Calendar room url clock st))).
Proof.
  intros U. unfold ICal.import_ics_for_room.
  destruct (requests_get url) as [text|]; [|exact U].
  destruct (Calendar text) as [events|]; [|exact U].
  pose proof (import_events_unique_ids room clock events 0 st 0 U) as U1.
  destruct (ICal.import_events room clock 0 events (st, 0)) as [st1 n1]. exact U1.
Qed.

Lemma sync_rooms_unique_ids map clock :
  forall st c log,
    unique_ids st ->
    unique_ids (fst (fst (ICal.sync_rooms requests_get Calendar map clock (st, c, log)))).
Proof.
  induction map as [|[r u] map IH]; intros st c log U; [exact U|].
  cbn [ICal.sync_rooms].
  pose proof (import_ics_unique_ids r u (clock r) st U) as U1.
  destruct (ICal.import_ics_for_room requests_get Calendar r u (clock r) st)
    as [[st1 n1] log1].
  apply IH. exact U1.
Qed.

(** X1. Every operation that writes to [bookings] keeps the ids of its
    rows pairwise distinct: an insert that goes through, an update that
    goes through, a delete, the two forms (whatever they are given), the
    import of a feed and the sync of every room. *)
Theorem primary_key_stays_unique (st : store) :
  unique_ids st ->
  (forall data now n st',
      insert_booking data now st = Ok (n, st') -> unique_ids st')
  /\ (forall booking_id data now st',
         update_booking booking_id data now st = Ok st' -> unique_ids st')
  /\ (forall booking_id, unique_ids (delete_booking booking_id st))
  /\ (forall f now, unique_ids (db (new_booking_form f now st)))
  /\ (forall sel_id f now, unique_ids (db (edit_form sel_id f now st)))
  /\ (forall room url clock,
         unique_ids (fst (fst (ICal.import_ics_for_room requests_get Calendar
                                 room url clock st))))
  /\ (forall clock,
         unique_ids (fst (ICal.sync_button requests_get Calendar clock st))).
Proof.
  intros U. repeat split.
  - intros data now n st' H. destruct (insert_booking_ok _ _ _ _ _ H)
      as (En & _ & _ & row & B & I).
    unfold unique_ids. rewrite B, map_app. cbn.
    apply NoDup_app; [exact U | repeat constructor; intros [] |].
    intros i Hi [<-|[]]. apply in_map_iff in Hi. destruct Hi as (x & Ex & Hx).
    apply next_rowid_fresh in Hx. lia.
  - intros booking_id data now st' H. unfold unique_ids.
    rewrite (update_booking_ids _ _ _ _ _ H). exact U.
  - intros booking_id. unfold unique_ids, delete_booking. cbn.
    apply ids_of_filter_distinct. exact U.
  - intros f now. unfold new_booking_form.
    destruct (String.eqb _ ""); [exact U|].
    destruct (_ <=? _); [exact U|].
    destruct (has_overlap _ _ _ None st) as [overlap conflicts].
    rewrite insert_form_data. cbn [db].
    apply unique_ids_append; [exact U | reflexivity].
  - intros sel_id f now. unfold edit_form.
    destruct (String.eqb _ ""); [exact U|].
    destruct (_ <=? _); [exact U|].
    destruct (has_overlap _ _ _ (Some sel_id) st) as [overlap conflicts].
    pose proof (update_form_data sel_id f now st) as E. rewrite E. cbn [db].
    unfold unique_ids. rewrite (update_booking_ids _ _ _ _ _ E). exact U.
  - intros room url clock. apply import_ics_unique_ids. exact U.
  - intros clock. unfold ICal.sync_button, ICal.get_ical_map.
    pose proof (sync_rooms_unique_ids (ical_endpoints st) clock st 0 [] U) as U1.
    destruct (ICal.sync_rooms requests_get Calendar (ical_endpoints st) clock (st, 0, []))
      as [[st1 n1] log1].
    exact U1.
Qed.

End PrimaryKey.

Lemma primary_key_witness :
  unique_ids (delete_booking 1 example_store)
  /\ unique_ids (db (new_booking_form example_form 50 example_store))
  /\ unique_ids (fst (ICal.sync_button example_requests_get example_Calendar
                        (fun _ _ => 50) imported_store)).
Proof.
  assert (U : unique_ids example_store).
  { unfold unique_ids. cbn. repeat constructor; cbn; intuition discriminate. }
  assert (V : unique_ids imported_store).
  { unfold unique_ids. vm_compute. repeat constructor; cbn; intuition discriminate. }
  split; [|split].
  - apply (primary_key_stays_unique example_requests_get example_Calendar example_store U).
  - apply (primary_key_stays_unique example_requests_get example_Calendar example_store U).
  - apply (primary_key_stays_unique example_requests_get example_Calendar imported_store V).
Defined.

Lemma max_rowid_nonneg (rows : list Booking.t) : 0 <= max_rowid rows.
Proof.
  unfold max_rowid. induction rows as [|x rows IH]; cbn [fold_right]; lia.
Qed.

Lemma max_rowid_filter (p : Booking.t -> bool) (rows : list Booking.t) :
  max_rowid (filter p rows) <= max_rowid rows.
Proof.
  unfold max_rowid. induction rows as [|x rows IH]; cbn [filter fold_right]; [lia|].
  destruct (p x); cbn [fold_right]; lia.
Qed.

Lemma max_rowid_append (rows : list Booking.t) (b : Booking.t) :
  max_rowid (rows ++ [b]) = Z.max (max_rowid rows) (Z.max (Booking.id b) 0).
Proof.
  unfold max_rowid. induction rows as [|x rows IH]; cbn [app fold_right]; [lia|].
  rewrite IH. lia.
Qed.

(** X2. An id is never given out twice: after [insert_booking] returned
    [n], deleting any booking (also booking [n] itself, also the last
    row of the table) does not free [n]; the next insert returns
    [n + 1]. *)
Theorem deleted_ids_are_not_reused
    (data data' : dict) (now now' : timestamp) (k n m : Z) (st st1 st2 : store) :
  insert_booking data now st = Ok (n, st1) ->
  insert_booking data' now' (delete_booking k st1) = Ok (m, st2) ->
  m = n + 1 /\ forall b, In b (bookings st) -> Booking.id b < m.
Proof.
  intros H1 H2.
  destruct (insert_booking_ok _ _ _ _ _ H1) as (En & S1 & _ & row & B1 & I1).
  destruct (insert_booking_ok _ _ _ _ _ H2) as (Em & _).
  pose proof (max_rowid_nonneg (bookings st)) as N.
  assert (M : max_rowid (bookings st1) = n).
  { rewrite B1, max_rowid_append, I1. subst n. unfold next_rowid. lia. }
  assert (E : m = n + 1).
  { subst m. unfold next_rowid, delete_booking. cbn [bookings sqlite_sequence with_bookings].
    pose proof (max_rowid_filter (fun b => negb (Booking.id b =? k)) (bookings st1)).
    rewrite S1. lia. }
  split; [exact E|]. intros b Hb. apply next_rowid_fresh in Hb. lia.
Qed.

Lemma deleted_ids_witness :
  4 = 3 + 1 /\ forall b, In b (bookings example_store) -> Booking.id b < 4.
Proof.
  eapply (deleted_ids_are_not_reused example_data example_data 50 60 3 3 4 example_store);
    reflexivity.
Defined.

(** ** [delete_booking] *)

(** X3. [delete_booking] removes the rows with the given id and only
    them; afterwards no query returns that id, whatever its filters, and
    [has_overlap] counts it for no candidate; the other table and the
    id counter are not touched, and when no booking has the id the store
    is as before. *)
Theorem delete_booking_removes_the_id (booking_id : Z) (st : store) :
  (forall b, In b (bookings (delete_booking booking_id st))
             <-> In b (bookings st) /\ Booking.id b <> booking_id)
  /\ (forall start end_ status room search b,
         In b (fetch_bookings start end_ status room search
                              (delete_booking booking_id st)) ->
         Booking.id b <> booking_id
         /\ In b (fetch_bookings start end_ status room search st))
  /\ (forall check_in check_out room exclude_id b,
         In b (snd (has_overlap check_in check_out room exclude_id
                                (delete_booking booking_id st))) ->
         Booking.id b <> booking_id)
  /\ ical_endpoints (delete_booking booking_id st) = ical_endpoints st
  /\ sqlite_sequence (delete_booking booking_id st) = sqlite_sequence st
  /\ ((forall b, In b (bookings st) -> Booking.id b <> booking_id) ->
      bookings (delete_booking booking_id st) = bookings st).
Proof.
  assert (D : forall b, In b (bookings (delete_booking booking_id st))
                        <-> In b (bookings st) /\ Booking.id b <> booking_id).
  { intros b. unfold delete_booking. cbn. rewrite filter_In, negb_true_iff, Z.eqb_neq.
    reflexivity. }
  split; [exact D|]. split; [|split; [|split; [|split]]].
  - intros start end_ status room search b H. apply fetch_bookings_In in H.
    destruct H as [Hb S]. apply D in Hb. split; [tauto|].
    apply fetch_bookings_In. tauto.
  - intros check_in check_out room exclude_id b H.
    unfold has_overlap in H. cbn [snd] in H. apply filter_In in H.
    destruct H as [Hb _]. apply D in Hb. tauto.
  - reflexivity.
  - reflexivity.
  - intros N. unfold delete_booking. cbn. apply forallb_filter_id.
    apply forallb_forall. intros b Hb. apply negb_true_iff, Z.eqb_neq. auto.
Qed.

Lemma delete_booking_witness :
  bookings (delete_booking 9 example_store) = bookings example_store.
Proof.
  apply (delete_booking_removes_the_id 9 example_store).
  cbn. intros b [<-|[<-|[]]]; cbn; lia.
Defined.

(** ** [insert_booking] *)

(** X4. A missing key among [guest_name], [check_in] and [check_out]
    raises KeyError for the first missing one (in that order) before
    the database is touched.  For a dict whose number of guests SQLite
    can hold, [insert_booking] goes through exactly when the dict binds
    the three keys to values; with the three keys there, one bound to
    [None] raises the integrity error of the first such column. *)
Theorem insert_booking_needs_its_three_keys (data : dict) (now : timestamp) (st : store) :
  (d_guest_name data = Absent ->
   insert_booking data now st = Raise (KeyError "guest_name"))
  /\ (d_guest_name data <> Absent -> d_check_in data = Absent ->
      insert_booking data now st = Raise (KeyError "check_in"))
  /\ (d_guest_name data <> Absent -> d_check_in data <> Absent ->
      d_check_out data = Absent ->
      insert_booking data now st = Raise (KeyError "check_out"))
  /\ (guests_fit data ->
      ((exists n st', insert_booking data now st = Ok (n, st')) <-> has_required data)
      /\ (d_check_in data <> Absent -> d_check_out data <> Absent ->
          d_guest_name data = Present None ->
          insert_booking data now st = Raise (IntegrityError "bookings.guest_name"))
      /\ (forall g, d_guest_name data = Present (Some g) -> d_check_out data <> Absent ->
          d_check_in data = Present None ->
          insert_booking data now st = Raise (IntegrityError "bookings.check_in"))
      /\ (forall g ci, d_guest_name data = Present (Some g) ->
          d_check_in data = Present (Some ci) -> d_check_out data = Present None ->
          insert_booking data now st = Raise (IntegrityError "bookings.check_out"))).
Proof.
  unfold insert_booking, has_required.
  destruct (d_guest_name data) as [|[g|]], (d_check_in data) as [|[ci|]],
           (d_check_out data) as [|[co|]]; cbn.
  all: split; [intros; congruence|].
  all: split; [intros; congruence|].
  all: split; [intros; congruence|].
  all: intros _.
  all: split;
    [split;
     [intros (n & st' & H); try discriminate H; repeat split; discriminate
     |intros (H1 & H2 & H3); try congruence; eexists; eexists; reflexivity]
    |repeat split; intros; congruence].
Qed.

Lemma insert_booking_keys_witness :
  insert_booking example_partial 50 example_store = Raise (KeyError "check_in")
  /\ exists n st', insert_booking example_data 50 example_store = Ok (n, st').
Proof.
  split.
  - apply (insert_booking_needs_its_three_keys example_partial 50 example_store);
      [discriminate | reflexivity].
  - apply (insert_booking_needs_its_three_keys example_data 50 example_store).
    + intros g [= <-]. lia.
    + repeat split; discriminate.
Defined.

(** X5. Round trip: when the dict binds the three keys, to values
    SQLite keeps as they are (a number of guests within 64 bits, a
    price that is a number and not the negative zero), the id
    [insert_booking] returns is larger than every id of the store and
    than every id given out before; an unfiltered query afterwards
    returns a row with that id that holds the values of the dict (1
    guest and price 0 for a missing key, the provenance pair as given,
    both timestamps the time of the insert), and every booking that was
    there before, unchanged. *)
Theorem insert_booking_round_trip (data : dict) (now : timestamp) (st : store) :
  has_required data -> guests_fit data -> price_kept data ->
  exists n st' row,
    insert_booking data now st = Ok (n, st')
    /\ sqlite_sequence st < n
    /\ (forall b, In b (bookings st) -> Booking.id b < n)
    /\ Booking.id row = n
    /\ stored_from data now row
    /\ (forall b, In b (fetch_bookings None None None None None st')
                  <-> b = row \/ In b (bookings st)).
Proof.
  intros (G & I & O) _ _. unfold insert_booking.
  destruct (d_guest_name data) as [|[g|]] eqn:Eg; cbn in G; try congruence.
  destruct (d_check_in data) as [|[ci|]] eqn:Ei; cbn in I; try congruence.
  destruct (d_check_out data) as [|[co|]] eqn:Eo; cbn in O; try congruence.
  cbn [bind getitem not_null]. cbv zeta.
  match goal with
  | |- context [bookings st ++ [?r]] =>
      exists (next_rowid st), (with_bookings st (bookings st ++ [r]) (next_rowid st)), r
  end.
  split; [reflexivity|].
  split; [unfold next_rowid; lia|].
  split; [intros b Hb; apply next_rowid_fresh; exact Hb|].
  split; [reflexivity|]. split.
  - unfold stored_from. cbn. rewrite Eg, Ei, Eo. cbn. repeat split; reflexivity.
  - intros b. rewrite fetch_bookings_In. cbn [bookings with_bookings].
    rewrite in_app_iff. cbn [In]. split.
    + intros ([H|[H|[]]] & _); auto.
    + intros H. split; [destruct H as [H|H]; auto|].
      repeat split; discriminate.
Qed.

Lemma insert_booking_round_trip_witness :
  exists n st' row,
    insert_booking example_data 50 example_store = Ok (n, st')
    /\ sqlite_sequence example_store < n
    /\ (forall b, In b (bookings example_store) -> Booking.id b < n)
    /\ Booking.id row = n
    /\ stored_from example_data 50 row
    /\ (forall b, In b (fetch_bookings None None None None None st')
                  <-> b = row \/ In b (bookings example_store)).
Proof.
  apply (insert_booking_round_trip example_data 50 example_store).
  - repeat split; discriminate.
  - intros g [= <-]. lia.
  - intros p [= <-]. split; [reflexivity | discriminate].
Defined.

(** ** [update_booking] after [update_booking] *)

Lemma existsb_id_map (booking_id : Z) (f : Booking.t -> Booking.t) (rows : list Booking.t) :
  (forall b, Booking.id (f b) = Booking.id b) ->
  existsb (fun b => Booking.id b =? booking_id) (map f rows)
  = existsb (fun b => Booking.id b =? booking_id) rows.
Proof.
  intros H. induction rows as [|b rows IH]; cbn; [reflexivity|].
  rewrite H, IH. reflexivity.
Qed.

(** X6. The last write wins: after an update of a booking that went
    through, a second update of the same booking gives what it would
    have given without the first, the same store or the same refusal;
    nothing of the first update is left but its passage ([created_at]
    and the other rows are as they were). *)
Theorem update_booking_last_write_wins
    (booking_id : Z) (data1 data2 : dict) (now1 now2 : timestamp) (st st1 : store) :
  update_booking booking_id data1 now1 st = Ok st1 ->
  update_booking booking_id data2 now2 st1 = update_booking booking_id data2 now2 st.
Proof.
  unfold update_booking.
  destruct (existsb (fun b => Booking.id b =? booking_id) (bookings st)) eqn:E.
  - destruct (not_null _ (get (d_guest_name data1))) as [g1|]; cbn; [|discriminate].
    destruct (not_null _ (get (d_check_in data1))) as [i1|]; cbn; [|discriminate].
    destruct (not_null _ (get (d_check_out data1))) as [o1|]; cbn; [|discriminate].
    intros [= <-]. cbn [bookings with_bookings sqlite_sequence].
    rewrite existsb_id_map, E.
    + destruct (not_null _ (get (d_guest_name data2))) as [g2|]; cbn; [|reflexivity].
      destruct (not_null _ (get (d_check_in data2))) as [i2|]; cbn; [|reflexivity].
      destruct (not_null _ (get (d_check_out data2))) as [o2|]; cbn; [|reflexivity].
      unfold with_bookings. cbn. f_equal. f_equal. rewrite map_map.
      apply map_ext. intros b.
      destruct (Booking.id b =? booking_id) eqn:I; cbn; rewrite I; reflexivity.
    + intros b. destruct (Booking.id b =? booking_id); reflexivity.
  - intros [= <-]. rewrite E. reflexivity.
Qed.

Lemma update_booking_last_write_witness :
  exists st1,
    update_booking 2 (form_data example_form) 50 example_store = Ok st1
    /\ update_booking 2 example_data 60 st1
       = update_booking 2 example_data 60 example_store.
Proof.
  eexists. split; [reflexivity|].
  apply (update_booking_last_write_wins 2 (form_data example_form) example_data 50 60
           example_store).
  reflexivity.
Defined.

(** ** The two queries side by side *)

Lemma has_overlap_rows check_in check_out room exclude_id st b :
  In b (snd (has_overlap check_in check_out room exclude_id st))
  <-> In b (bookings st) /\ conflicting check_in check_out room exclude_id b.
Proof.
  unfold has_overlap. cbn [snd]. rewrite filter_In, overlap_where_iff. reflexivity.
Qed.

(** X7. The conflicts of [has_overlap] for a stay in a room are the
    bookings the list query returns for the same window and room, less
    the cancelled ones (and those without a status): the two queries use
    the same window test.  This needs a room name other than the empty
    text and 'Tutte', which the list query takes for "no room filter":
    with one of these it returns the bookings of every room. *)
Theorem has_overlap_agrees_with_fetch_bookings
    (check_in check_out : date) (room : string) (st : store) :
  (room <> "" -> room <> "Tutte" ->
   forall b,
     In b (snd (has_overlap check_in check_out room None st))
     <-> In b (fetch_bookings (Some check_in) (Some check_out) None (Some room) None st)
         /\ exists s, Booking.status b = Some s /\ s <> "Annullata")
  /\ (room = "" \/ room = "Tutte" ->
      forall start end_ status search,
        fetch_bookings start end_ status (Some room) search st
        = fetch_bookings start end_ status None search st).
Proof.
  split.
  - intros N1 N2 b.
    pose proof (has_overlap_rows check_in check_out room None st b) as [H1 H2].
    rewrite fetch_bookings_In. unfold selected, conflicting in *. split.
    + intros H. apply H1 in H. destruct H as (Hb & R & S & _ & I & O).
      split; [|exact S]. split; [exact Hb|].
      repeat split; try discriminate.
      * intros s [= <-]. lia.
      * intros e [= <-]. exact I.
      * intros v [= <-] _ _. exact R.
    + intros ((Hb & (S1 & E1 & _ & R & _)) & S). apply H2.
      split; [exact Hb|]. specialize (S1 _ eq_refl). specialize (E1 _ eq_refl).
      specialize (R room eq_refl N1 N2).
      repeat split; auto; try lia. discriminate.
  - intros [-> | ->] start end_ status search; reflexivity.
Qed.

Lemma has_overlap_agrees_witness :
  (In (example_row 1 "R1" "Confermata" 1 5) (snd (has_overlap 4 6 "R1" None example_store))
   <-> In (example_row 1 "R1" "Confermata" 1 5)
          (fetch_bookings (Some 4) (Some 6) None (Some "R1") None example_store)
       /\ exists s, Booking.status (example_row 1 "R1" "Confermata" 1 5) = Some s
                    /\ s <> "Annullata")
  /\ fetch_bookings None None None (Some "Tutte") None example_store
     = fetch_bookings None None None None None example_store.
Proof.
  split.
  - apply (has_overlap_agrees_with_fetch_bookings 4 6 "R1" example_store); discriminate.
  - apply (has_overlap_agrees_with_fetch_bookings 4 6 "Tutte" example_store).
    right. reflexivity.
Defined.

(** ** The export *)

Lemma insert_by_check_in_perm (b : Booking.t) (l : list Booking.t) :
  Permutation (insert_by_check_in b l) (b :: l).
Proof.
  induction l as [|x l IH]; cbn; [reflexivity|].
  destruct (Booking.check_in b <=? Booking.check_in x); [reflexivity|].
  rewrite IH. apply perm_swap.
Qed.

Lemma order_by_check_in_perm (l : list Booking.t) :
  Permutation (order_by_check_in l) l.
Proof.
  induction l as [|x l IH]; cbn; [reflexivity|].
  rewrite insert_by_check_in_perm, IH. reflexivity.
Qed.

(** X8. The unfiltered query, from which the CSV and the list of the
    edit tab are made, returns every booking of the store exactly once
    (a rearrangement of the table), in ascending order of [check_in]. *)
Theorem unfiltered_fetch_is_the_whole_table (st : store) :
  Permutation (fetch_bookings None None None None None st) (bookings st)
  /\ List.length (fetch_bookings None None None None None st)
     = List.length (bookings st)
  /\ Sorted check_in_le (fetch_bookings None None None None None st).
Proof.
  assert (F : filter (fun b => Sql.holds (fetch_where None None None None None b))
                     (bookings st) = bookings st).
  { apply forallb_filter_id. apply forallb_forall. reflexivity. }
  assert (P : Permutation (fetch_bookings None None None None None st) (bookings st)).
  { unfold fetch_bookings. rewrite F. apply order_by_check_in_perm. }
  split; [exact P|]. split; [apply Permutation_length; exact P|].
  apply order_by_check_in_sorted.
Qed.

(** ** What the forms let into the store *)

(** X9. The forms check before they write: without a guest name they
    show that error and nothing else happens, with a guest name but a
    check-out not after the check-in they show the other error and
    nothing else happens.  So, whatever is typed into them, the forms
    (and a delete) keep the store free of bookings without a guest name
    or without a night. *)
Theorem forms_keep_stays_valid (f : form) (sel_id : Z) (now : timestamp) (st : store) :
  (f_guest_name f = "" ->
   new_booking_form f now st
   = {| db := st; shown := [st_error GuestNameRequired]; raised := None |}
   /\ edit_form sel_id f now st
      = {| db := st; shown := [st_error GuestNameRequired]; raised := None |})
  /\ (f_guest_name f <> "" -> f_check_out f <= f_check_in f ->
      new_booking_form f now st
      = {| db := st; shown := [st_error CheckOutAfterCheckIn]; raised := None |}
      /\ edit_form sel_id f now st
         = {| db := st; shown := [st_error CheckOutAfterCheckIn]; raised := None |})
  /\ (Forall valid_stay (bookings st) ->
      Forall valid_stay (bookings (db (new_booking_form f now st)))
      /\ Forall valid_stay (bookings (db (edit_form sel_id f now st)))
      /\ Forall valid_stay (bookings (delete_booking sel_id st))).
Proof.
  split; [|split].
  - intros E. unfold new_booking_form, edit_form. rewrite E. split; reflexivity.
  - intros N L. unfold new_booking_form, edit_form.
    apply String.eqb_neq in N. apply Z.leb_le in L. rewrite N, L. split; reflexivity.
  - intros V. unfold new_booking_form, edit_form.
    destruct (String.eqb_spec (f_guest_name f) "") as [E|N].
    { split; [exact V|]. split; [exact V|].
      unfold delete_booking. cbn. apply Forall_forall. intros b Hb.
      apply filter_In in Hb. rewrite Forall_forall in V. apply V. tauto. }
    destruct (Z.leb_spec (f_check_out f) (f_check_in f)) as [L|L].
    { split; [exact V|]. split; [exact V|].
      unfold delete_booking. cbn. apply Forall_forall. intros b Hb.
      apply filter_In in Hb. rewrite Forall_forall in V. apply V. tauto. }
    destruct (has_overlap _ _ _ None st) as [o1 c1].
    destruct (has_overlap _ _ _ (Some sel_id) st) as [o2 c2].
    rewrite insert_form_data, update_form_data. cbn [db bookings with_bookings].
    split; [|split].
    + apply Forall_app. split; [exact V|]. constructor; [|constructor].
      split; cbn; assumption.
    + apply Forall_forall. intros b Hb. apply in_map_iff in Hb.
      destruct Hb as (b0 & <- & Hb0).
      destruct (Booking.id b0 =? sel_id).
      * split; cbn; assumption.
      * rewrite Forall_forall in V. apply V. exact Hb0.
    + unfold delete_booking. cbn. apply Forall_forall. intros b Hb.
      apply filter_In in Hb. rewrite Forall_forall in V. apply V. tauto.
Qed.

Lemma forms_keep_stays_valid_witness :
  Forall valid_stay (bookings (db (new_booking_form example_form 50 example_store)))
  /\ Forall valid_stay (bookings (db (edit_form 1 example_form 50 example_store)))
  /\ Forall valid_stay (bookings (delete_booking 1 example_store)).
Proof.
  apply (forms_keep_stays_valid example_form 1 50 example_store).
  repeat constructor; cbn; try discriminate; lia.
Defined.

(** ** [parse_guest_from_summary] *)

Lemma lstrip_head (s : string) :
  ICal.lstrip s = "" \/ exists c t, ICal.lstrip s = String c t /\ ICal.is_space c = false.
Proof.
  induction s as [|c s IH]; cbn; [left; reflexivity|].
  destruct (ICal.is_space c) eqn:E; [exact IH|]. right. exists c, s. auto.
Qed.

Lemma rstrip_cons_nonspace (c : ascii) (t : string) :
  ICal.is_space c = false -> ICal.rstrip (String c t) = String c (ICal.rstrip t).
Proof.
  intros E. cbn. rewrite E. destruct (ICal.rstrip t); reflexivity.
Qed.

Lemma rstrip_idempotent (t : string) : ICal.rstrip (ICal.rstrip t) = ICal.rstrip t.
Proof.
  induction t as [|c t IH]; [reflexivity|].
  cbn [ICal.rstrip]. destruct (ICal.rstrip t) as [|d r] eqn:R.
  - destruct (ICal.is_space c) eqn:E; [reflexivity|]. cbn. rewrite E. reflexivity.
  - cbn [ICal.rstrip] in *. rewrite IH. reflexivity.
Qed.

Lemma strip_idempotent (s : string) : ICal.strip (ICal.strip s) = ICal.strip s.
Proof.
  unfold ICal.strip. destruct (lstrip_head s) as [->|(c & t & -> & E)]; [reflexivity|].
  rewrite (rstrip_cons_nonspace c t E). cbn [ICal.lstrip]. rewrite E.
  rewrite (rstrip_cons_nonspace c _ E), rstrip_idempotent. reflexivity.
Qed.

Lemma occurs_lstrip (c : ascii) (s : string) : occurs c (ICal.lstrip s) -> occurs c s.
Proof.
  unfold occurs. induction s as [|d s IH]; cbn; [tauto|].
  destruct (ICal.is_space d); cbn; tauto.
Qed.

Lemma occurs_rstrip (c : ascii) (s : string) : occurs c (ICal.rstrip s) -> occurs c s.
Proof.
  unfold occurs. induction s as [|d s IH]; cbn [ICal.rstrip]; [tauto|].
  destruct (ICal.rstrip s) as [|e r].
  - destruct (ICal.is_space d); cbn; tauto.
  - cbn [list_ascii_of_string In] in *. tauto.
Qed.

Lemma re_sub_tokens_no_hash (s : string) :
  forall skip, ~ occurs "#" (ICal.re_sub_tokens skip s).
Proof.
  unfold occurs. induction s as [|c s IH]; intros skip; cbn [ICal.re_sub_tokens].
  - cbn. tauto.
  - destruct skip as [|k]; [|apply IH].
    destruct (find _ ICal.tokens) as [tok|] eqn:F; [apply IH|].
    cbn [list_ascii_of_string In]. intros [E|H]; [|exact (IH 0%nat H)].
    subst c. pose proof (find_none _ _ F "#"%string) as N.
    cbn in N. discriminate N. do 5 right. left. reflexivity.
Qed.

Lemma re_sub_tokens_token_free (s : string) :
  token_free s -> ICal.re_sub_tokens 0 s = s.
Proof.
  induction s as [|c s IH]; intros T; [reflexivity|].
  cbn [ICal.re_sub_tokens]. rewrite (T "" (String c s) eq_refl).
  rewrite IH; [reflexivity|]. intros pre suf E.
  apply (T (String c pre) suf). cbn. rewrite E. reflexivity.
Qed.

(** X10. The guest name the import reads off a summary is never empty,
    has no white space at either end and holds no [#]: when nothing is
    left of the summary the placeholder stands in.  A summary that
    holds no token and has no white space at its ends is the guest name
    as it is. *)
Theorem parse_guest_from_summary_gives_a_name (summary : string) :
  ICal.parse_guest_from_summary summary <> ""
  /\ ICal.strip (ICal.parse_guest_from_summary summary)
     = ICal.parse_guest_from_summary summary
  /\ ~ occurs "#" (ICal.parse_guest_from_summary summary)
  /\ (summary <> "" -> token_free summary -> ICal.strip summary = summary ->
      ICal.parse_guest_from_summary summary = summary).
Proof.
  unfold ICal.parse_guest_from_summary.
  destruct (String.eqb_spec summary "") as [E|N].
  { repeat split; try discriminate; try reflexivity.
    - unfold occurs. cbn. intuition discriminate.
    - intros C. contradiction. }
  destruct (String.eqb_spec (ICal.strip (ICal.re_sub_tokens 0 summary)) "") as [E|M].
  - repeat split; try discriminate; try reflexivity.
    + unfold occurs. cbn. intuition discriminate.
    + intros _ T S. rewrite (re_sub_tokens_token_free _ T), S in E. contradiction.
  - split; [exact M|]. split; [apply strip_idempotent|]. split.
    + intros O. unfold ICal.strip in O. apply occurs_rstrip, occurs_lstrip in O.
      exact (re_sub_tokens_no_hash _ _ O).
    + intros _ T S. rewrite (re_sub_tokens_token_free _ T). exact S.
Qed.

Lemma token_freeb_sound (s : string) : token_freeb s = true -> token_free s.
Proof.
  induction s as [|c s IH]; intros H pre suf E.
  - destruct pre; [|discriminate E]. cbn in E. subst suf. reflexivity.
  - unfold token_freeb in H; fold token_freeb in H.
    destruct (find _ ICal.tokens) eqn:F; [discriminate H|].
    destruct pre as [|d pre].
    + cbn in E. subst suf. exact F.
    + cbn in E. injection E as _ E. exact (IH H pre suf E).
Qed.

Lemma parse_guest_from_summary_witness :
  ICal.parse_guest_from_summary "CLOSED - Not available" = "CLOSED - Not available".
Proof.
  apply (parse_guest_from_summary_gives_a_name "CLOSED - Not available").
  - discriminate.
  - apply token_freeb_sound. reflexivity.
  - reflexivity.
Defined.

(** ** The provenance pair as a key *)

Lemma provenance_key_iff (u : string) (b : Booking.t) :
  In u (provenance_key b) <-> has_provenance u b.
Proof.
  unfold provenance_key, has_provenance.
  destruct (Booking.external_source b) as [s|], (Booking.external_uid b) as [v|];
    cbn; try (split; [tauto | intros [E1 E2]; discriminate]).
  destruct (String.eqb_spec s ICal.provider_tag) as [->|N]; cbn.
  - split; [intros [->|[]]; auto | intros [_ [= ->]]; auto].
  - split; [tauto | intros [[= E] _]; contradiction].
Qed.

Lemma provenance_keys_iff (u : string) (rows : list Booking.t) :
  In u (provenance_keys rows) <-> exists b, In b rows /\ has_provenance u b.
Proof.
  unfold provenance_keys. rewrite in_flat_map.
  split; intros (b & Hb & H); exists b; (split; [exact Hb|]);
    apply provenance_key_iff; exact H.
Qed.

Lemma provenance_key_cases (b : Booking.t) :
  provenance_key b = [] \/ exists u, provenance_key b = [u].
Proof.
  unfold provenance_key.
  destruct (Booking.external_source b) as [s|], (Booking.external_uid b) as [v|]; auto.
  destruct (String.eqb s ICal.provider_tag); eauto.
Qed.

Lemma flat_map_single_map {A B} (f : A -> B) (l : list A) :
  flat_map (fun a => [f a]) l = map f l.
Proof. induction l as [|a l IH]; cbn; [reflexivity | rewrite IH; reflexivity]. Qed.

Lemma flat_map_filter_rows {A} (p : A -> bool) (l : list A) :
  flat_map (fun a => if p a then [a] else []) l = filter p l.
Proof.
  induction l as [|a l IH]; cbn; [reflexivity|].
  rewrite IH. destruct (p a); reflexivity.
Qed.

(** Rows that lose their key, or go, leave the keys distinct. *)
Lemma provenance_keys_shrink (g : Booking.t -> list Booking.t) (rows : list Booking.t) :
  (forall b, flat_map provenance_key (g b) = provenance_key b
             \/ flat_map provenance_key (g b) = []) ->
  NoDup (provenance_keys rows) ->
  NoDup (provenance_keys (flat_map g rows))
  /\ incl (provenance_keys (flat_map g rows)) (provenance_keys rows).
Proof.
  intros G. unfold provenance_keys.
  induction rows as [|b rows IH]; cbn; intros N; [split; [constructor | apply incl_refl]|].
  rewrite flat_map_app.
  assert (N' : NoDup (flat_map provenance_key rows)).
  { destruct (provenance_key_cases b) as [E|(u & E)]; rewrite E in N; cbn in N;
      [exact N | inversion N; assumption]. }
  destruct (IH N') as [D I].
  destruct (G b) as [E|E]; rewrite E.
  - split; [|apply incl_app_app; [apply incl_refl | exact I]].
    destruct (provenance_key_cases b) as [K|(u & K)]; rewrite K in *; cbn; [exact D|].
    cbn in N. inversion N as [|? ? M _]; subst. constructor; [|exact D].
    intros H. apply M. apply I. exact H.
  - cbn. split; [exact D|]. apply incl_appr. exact I.
Qed.

Lemma unique_provenance_append (st : store) (b : Booking.t) (seq : Z) :
  unique_provenance st ->
  (forall u, In u (provenance_key b) -> ~ In u (provenance_keys (bookings st))) ->
  unique_provenance (with_bookings st (bookings st ++ [b]) seq).
Proof.
  unfold unique_provenance, provenance_keys. cbn. intros U F.
  rewrite flat_map_app. cbn. rewrite app_nil_r.
  apply NoDup_app; [exact U | |].
  - destruct (provenance_key_cases b) as [E|(u & E)]; rewrite E; repeat constructor.
    intros [].
  - intros u Hu Hb. exact (F u Hb Hu).
Qed.

Lemma import_event_unique_provenance room now ev st created :
  unique_provenance st ->
  unique_provenance (fst (ICal.import_event room now ev (st, created))).
Proof.
  intros U. destruct (ICalFacts.dated_dec ev) as [(s & e & B & E)|N].
  - destruct (ICal.already_imported (ICal.event_uid room ev) st) eqn:K.
    + rewrite ICalFacts.import_event_known by exact K. exact U.
    + rewrite (ICalFacts.import_event_fresh _ _ _ _ _ s e B E K). cbn [fst].
      apply unique_provenance_append; [exact U|].
      intros u [<-|[]] H. apply provenance_keys_iff in H.
      apply ICalFacts.already_imported_iff in H. congruence.
  - rewrite ICalFacts.import_event_undated by exact N. exact U.
Qed.

Lemma import_events_unique_provenance room clock events :
  forall i st created,
    unique_provenance st ->
    unique_provenance (fst (ICal.import_events room clock i events (st, created))).
Proof.
  induction events as [|ev events IH]; intros i st created U; [exact U|].
  cbn [ICal.import_events].
  pose proof (import_event_unique_provenance room (clock i) ev st created U) as U1.
  destruct (ICal.import_event room (clock i) ev (st, created)) as [st1 c1].
  apply IH. exact U1.
Qed.

Section ProvenanceKey.

Variable requests_get : string -> option string.
Variable Calendar : string -> option (list ICal.Event).

Lemma import_ics_unique_provenance room url clock st :
  unique_provenance st ->
  unique_provenance
    (fst (fst (ICal.import_ics_for_room requests_get Calendar room url clock st))).
Proof.
  intros U. unfold ICal.import_ics_for_room.
  destruct (requests_get url) as [text|]; [|exact U].
  destruct (Calendar text) as [events|]; [|exact U].
  pose proof (import_events_unique_provenance room clock events 0 st 0 U) as U1.
  destruct (ICal.import_events room clock 0 events (st, 0)) as [st1 n1]. exact U1.
Qed.

Lemma sync_rooms_unique_provenance map clock :
  forall st c log,
    unique_provenance st ->
    unique_provenance
      (fst (fst (ICal.sync_rooms requests_get Calendar map clock (st, c, log)))).
Proof.
  induction map as [|[r u] map IH]; intros st c log U; [exact U|].
  cbn [ICal.sync_rooms].
  pose proof (import_ics_unique_provenance r u (clock r) st U) as U1.
  destruct (ICal.import_ics_for_room requests_get Calendar r u (clock r) st)
    as [[st1 n1] log1].
  apply IH. exact U1.
Qed.

(** X11. The import finds a booking by its provenance pair, and what
    the page can do keeps that pair a key: when no two bookings carry
    the same pair, this is still so after an import, after a sync of
    every room, after either form (whatever it is given) and after a
    delete. *)
Theorem provenance_pair_stays_unique (st : store) :
  unique_provenance st ->
  (forall room url clock,
      unique_provenance
        (fst (fst (ICal.import_ics_for_room requests_get Calendar room url clock st))))
  /\ (forall clock,
         unique_provenance (fst (ICal.sync_button requests_get Calendar clock st)))
  /\ (forall f now, unique_provenance (db (new_booking_form f now st)))
  /\ (forall sel_id f now, unique_provenance (db (edit_form sel_id f now st)))
  /\ (forall booking_id, unique_provenance (delete_booking booking_id st)).
Proof.
  intros U. split; [|split; [|split; [|split]]].
  - intros room url clock. apply import_ics_unique_provenance. exact U.
  - intros clock. unfold ICal.sync_button, ICal.get_ical_map.
    pose proof (sync_rooms_unique_provenance (ical_endpoints st) clock st 0 [] U) as U1.
    destruct (ICal.sync_rooms requests_get Calendar (ical_endpoints st) clock (st, 0, []))
      as [[st1 n1] log1].
    exact U1.
  - intros f now. unfold new_booking_form.
    destruct (String.eqb _ ""); [exact U|].
    destruct (_ <=? _); [exact U|].
    destruct (has_overlap _ _ _ None st) as [overlap conflicts].
    rewrite insert_form_data. cbn [db].
    apply unique_provenance_append; [exact U|]. intros u [].
  - intros sel_id f now. unfold edit_form.
    destruct (String.eqb _ ""); [exact U|].
    destruct (_ <=? _); [exact U|].
    destruct (has_overlap _ _ _ (Some sel_id) st) as [overlap conflicts].
    rewrite update_form_data. cbn [db]. unfold unique_provenance. cbn.
    rewrite <- flat_map_single_map.
    apply provenance_keys_shrink; [|exact U].
    intros b. cbn. rewrite app_nil_r.
    destruct (Booking.id b =? sel_id); [right; reflexivity | left; reflexivity].
  - intros booking_id. unfold unique_provenance, delete_booking. cbn.
    rewrite <- flat_map_filter_rows.
    apply provenance_keys_shrink; [|exact U].
    intros b. destruct (negb _); cbn; [left; apply app_nil_r | right; reflexivity].
Qed.

End ProvenanceKey.

Lemma provenance_pair_witness :
  unique_provenance (db (edit_form 3 example_form 60 imported_store))
  /\ unique_provenance
       (fst (ICal.sync_button example_requests_get example_Calendar
               (fun _ _ => 70) imported_store)).
Proof.
  assert (U : unique_provenance imported_store).
  { unfold unique_provenance. vm_compute. repeat constructor; cbn; intuition discriminate. }
  split.
  - apply (provenance_pair_stays_unique example_requests_get example_Calendar
             imported_store U).
  - apply (provenance_pair_stays_unique example_requests_get example_Calendar
             imported_store U).
Defined.

(** ** The sync of every room *)

Section SyncAll.
Import ICal ICalFacts.

Variable requests_get : string -> option string.
Variable Calendar : string -> option (list Event).

Lemma import_ics_appends room url clock st :
  exists new,
    bookings (fst (fst (import_ics_for_room requests_get Calendar room url clock st)))
    = bookings st ++ new
    /\ snd (fst (import_ics_for_room requests_get Calendar room url clock st))
       = Z.of_nat (List.length new)
    /\ ical_endpoints (fst (fst (import_ics_for_room requests_get Calendar
                                   room url clock st)))
       = ical_endpoints st.
Proof.
  unfold import_ics_for_room.
  destruct (requests_get url) as [text|];
    [|exists []; cbn; rewrite app_nil_r; auto].
  destruct (Calendar text) as [events|];
    [|exists []; cbn; rewrite app_nil_r; auto].
  destruct (import_events_appends room clock events 0 st 0) as (new & B & C & E & _).
  destruct (import_events room clock 0 events (st, 0)) as [st1 n1].
  cbn [fst snd] in *. exists new. split; [exact B|]. split; [lia | exact E].
Qed.

Lemma import_ics_covers room url clock st events ev :
  feed_events requests_get Calendar url events -> In ev events -> dated ev ->
  already_imported (event_uid room ev)
    (fst (fst (import_ics_for_room requests_get Calendar room url clock st))) = true.
Proof.
  intros (text & G & C) HIn D. unfold import_ics_for_room. rewrite G, C.
  pose proof (import_events_covers room clock events 0 st 0 ev HIn D) as K.
  destruct (import_events room clock 0 events (st, 0)) as [st1 n1]. exact K.
Qed.

Lemma import_ics_all_known room url clock st :
  (forall events ev, feed_events requests_get Calendar url events -> In ev events -> dated ev ->
                     already_imported (event_uid room ev) st = true) ->
  fst (import_ics_for_room requests_get Calendar room url clock st) = (st, 0).
Proof.
  intros K. unfold import_ics_for_room.
  destruct (requests_get url) as [text|] eqn:G; [|reflexivity].
  destruct (Calendar text) as [events|] eqn:C; [|reflexivity].
  rewrite (import_events_all_known room clock events 0 st 0); [reflexivity|].
  intros ev HIn D. apply (K events ev); [exists text; auto | exact HIn | exact D].
Qed.

Lemma sync_rooms_appends map clock :
  forall st c log,
  exists new,
    bookings (fst (fst (sync_rooms requests_get Calendar map clock (st, c, log))))
    = bookings st ++ new
    /\ snd (fst (sync_rooms requests_get Calendar map clock (st, c, log)))
       = c + Z.of_nat (List.length new)
    /\ ical_endpoints (fst (fst (sync_rooms requests_get Calendar map clock (st, c, log))))
       = ical_endpoints st.
Proof.
  induction map as [|[r u] map IH]; intros st c log.
  - exists []. cbn. rewrite app_nil_r. repeat split; lia.
  - cbn [sync_rooms].
    destruct (import_ics_appends r u (clock r) st) as (new1 & B1 & C1 & E1).
    destruct (import_ics_for_room requests_get Calendar r u (clock r) st)
      as [[st1 n1] log1].
    cbn [fst snd] in B1, C1, E1.
    destruct (IH st1 (c + n1) (log ++ log1)) as (new2 & B2 & C2 & E2).
    exists (new1 ++ new2). rewrite app_assoc, <- B1. split; [exact B2|].
    split; [rewrite C2, C1, length_app; lia | congruence].
Qed.

Lemma sync_rooms_covers map clock :
  forall st c log r u events ev,
    In (r, u) map -> feed_events requests_get Calendar u events -> In ev events -> dated ev ->
    already_imported (event_uid r ev)
      (fst (fst (sync_rooms requests_get Calendar map clock (st, c, log)))) = true.
Proof.
  induction map as [|[r0 u0] map IH]; intros st c log r u events ev HIn F He D;
    [destruct HIn|].
  cbn [sync_rooms].
  pose proof (import_ics_covers r0 u0 (clock r0) st events ev) as K.
  destruct (import_ics_for_room requests_get Calendar r0 u0 (clock r0) st)
    as [[st1 n1] log1].
  cbn [fst] in K. destruct HIn as [[= -> ->]|HIn].
  - destruct (sync_rooms_appends map clock st1 (c + n1) (log ++ log1)) as (new & B & _).
    apply (already_imported_grows _ st1 _ new B). apply K; assumption.
  - apply (IH st1 (c + n1) (log ++ log1) r u events ev); assumption.
Qed.

Lemma sync_rooms_all_known map clock :
  forall st c log,
    (forall r u events ev,
        In (r, u) map -> feed_events requests_get Calendar u events -> In ev events -> dated ev ->
        already_imported (event_uid r ev) st = true) ->
    fst (sync_rooms requests_get Calendar map clock (st, c, log)) = (st, c).
Proof.
  induction map as [|[r u] map IH]; intros st c log K; [reflexivity|].
  cbn [sync_rooms].
  assert (A : fst (import_ics_for_room requests_get Calendar r u (clock r) st) = (st, 0)).
  { apply import_ics_all_known. intros events ev. apply K. left. reflexivity. }
  destruct (import_ics_for_room requests_get Calendar r u (clock r) st)
    as [[st1 n1] log1].
  cbn [fst] in A. injection A as -> ->.
  rewrite Z.add_0_r. apply IH. intros r' u' events ev HIn. apply K. right. exact HIn.
Qed.


End SyncAll.


(** ** Two runs, each with its own download and parse *)

Section SyncTwice.
Import ICal ICalFacts.

Variable requests_get1 : string -> option string.
Variable Calendar1 : string -> option (list Event).
Variable requests_get2 : string -> option string.
Variable Calendar2 : string -> option (list Event).

(** A second import for a room creates nothing when every event it
    meets carries a key the first import met. *)
Lemma second_import_of_known_keys_imports_nothing
    (room url : string) (clock1 clock2 : nat -> timestamp) (st : store) :
  keys_repeat requests_get1 Calendar1 requests_get2 Calendar2 [(room, url)] ->
  let first := import_ics_for_room requests_get1 Calendar1 room url clock1 st in
  let second :=
    import_ics_for_room requests_get2 Calendar2 room url clock2 (fst (fst first)) in
  snd (fst second) = 0 /\ fst (fst second) = fst (fst first).
Proof.
  intros R. cbv zeta.
  rewrite (import_ics_all_known requests_get2 Calendar2 room url clock2).
  - split; reflexivity.
  - intros events2 ev2 F HIn D.
    destruct (R room url events2 ev2 (or_introl eq_refl) F HIn D)
      as (events1 & ev1 & F1 & HIn1 & D1 & Key).
    rewrite <- Key.
    apply (import_ics_covers requests_get1 Calendar1 room url clock1 st events1 ev1);
      assumption.
Qed.

(** X12. The button that syncs every room reports as many imported
    bookings as it appended to the table, changes no booking that was
    there and no endpoint.  Pressed a second time, with a download and
    a parse of its own, it imports nothing when every event with both
    dates that it meets for a room carries the key of such an event of
    the first run for that room: the store stays as the first run left
    it and the report says 0. *)
Theorem sync_button_counts_and_skips_known_keys
    (clock1 clock2 : string -> nat -> timestamp) (st : store) :
  let first := sync_button requests_get1 Calendar1 clock1 st in
  let second := sync_button requests_get2 Calendar2 clock2 (fst first) in
  (exists new log,
      bookings (fst first) = bookings st ++ new
      /\ ical_endpoints (fst first) = ical_endpoints st
      /\ snd first = log ++ [st_success (SyncDone (Z.of_nat (List.length new)))])
  /\ (keys_repeat requests_get1 Calendar1 requests_get2 Calendar2 (get_ical_map st) ->
      fst second = fst first
      /\ exists log, snd second = log ++ [st_success (SyncDone 0)]).
Proof.
  cbv zeta. unfold sync_button, get_ical_map.
  destruct (sync_rooms_appends requests_get1 Calendar1 (ical_endpoints st) clock1 st 0 [])
    as (new & B & C & E).
  pose proof (sync_rooms_covers requests_get1 Calendar1 (ical_endpoints st) clock1 st 0 [])
    as K.
  destruct (sync_rooms requests_get1 Calendar1 (ical_endpoints st) clock1 (st, 0, []))
    as [[st1 n1] log1].
  cbn [fst snd] in *. split.
  - exists new, log1. split; [exact B|]. split; [exact E|]. rewrite C. reflexivity.
  - intros R. rewrite E.
    assert (A : fst (sync_rooms requests_get2 Calendar2 (ical_endpoints st) clock2
                       (st1, 0, [])) = (st1, 0)).
    { apply sync_rooms_all_known. intros r u events2 ev2 HIn F He D.
      destruct (R r u events2 ev2 HIn F He D) as (events1 & ev1 & F1 & He1 & D1 & Key).
      rewrite <- Key. apply (K r u events1 ev1); assumption. }
    destruct (sync_rooms requests_get2 Calendar2 (ical_endpoints st) clock2 (st1, 0, []))
      as [[st2 n2] log2].
    cbn [fst snd] in *. injection A as -> ->. split; [reflexivity|].
    exists log2. reflexivity.
Qed.

End SyncTwice.

Lemma sync_button_known_keys_witness :
  keys_repeat example_requests_get example_Calendar
    example_requests_get example_Calendar (ICal.get_ical_map store_with_endpoint)
  /\ fst (ICal.sync_button example_requests_get example_Calendar (fun _ _ => 60)
            (fst (ICal.sync_button example_requests_get example_Calendar
                    (fun _ _ => 50) store_with_endpoint)))
     = fst (ICal.sync_button example_requests_get example_Calendar
              (fun _ _ => 50) store_with_endpoint).
Proof.
  assert (R : keys_repeat example_requests_get example_Calendar
                example_requests_get example_Calendar
                (ICal.get_ical_map store_with_endpoint)).
  { intros r u events2 ev2 _ F HIn D. exists events2, ev2. auto. }
  split; [exact R|].
  apply (proj2 (sync_button_counts_and_skips_known_keys
                  example_requests_get example_Calendar
                  example_requests_get example_Calendar
                  (fun _ _ => 50) (fun _ _ => 60) store_with_endpoint) R).
Defined.

(** ** The endpoints of the feeds *)

Lemma upsert_row_In (room url : string) (rows : list (string * string)) :
  In (room, url) (upsert_row room url rows).
Proof.
  induction rows as [|[r u] rows IH]; cbn; [left; reflexivity|].
  destruct (String.eqb_spec r room) as [->|N]; [left; reflexivity | right; exact IH].
Qed.

Lemma upsert_row_other (room url r u : string) (rows : list (string * string)) :
  r <> room -> (In (r, u) (upsert_row room url rows) <-> In (r, u) rows).
Proof.
  intros N. induction rows as [|[r0 u0] rows IH]; cbn.
  - split; [intros [[= E _]|[]]; congruence | tauto].
  - destruct (String.eqb_spec r0 room) as [->|M]; cbn.
    + split; intros [[= E _]|H]; try congruence; auto.
    + rewrite IH. reflexivity.
Qed.

Lemma upsert_row_keys (room url : string) (rows : list (string * string)) :
  (In room (map fst rows) -> map fst (upsert_row room url rows) = map fst rows)
  /\ (~ In room (map fst rows) ->
      map fst (upsert_row room url rows) = map fst rows ++ [room]).
Proof.
  induction rows as [|[r u] rows [IH1 IH2]]; cbn.
  - split; [intros [] | reflexivity].
  - destruct (String.eqb_spec r room) as [->|M]; cbn.
    + split; [reflexivity | intros N; exfalso; apply N; left; reflexivity].
    + split.
      * intros [E|H]; [contradiction|]. rewrite (IH1 H). reflexivity.
      * intros N. rewrite IH2; [reflexivity|]. intros H. apply N. right. exact H.
Qed.

Lemma upsert_row_unique (room url : string) (rows : list (string * string)) :
  NoDup (map fst rows) ->
  NoDup (map fst (upsert_row room url rows))
  /\ forall u, In (room, u) (upsert_row room url rows) -> u = url.
Proof.
  intros U. split.
  - destruct (in_dec string_dec room (map fst rows)) as [H|H].
    + rewrite (proj1 (upsert_row_keys room url rows) H). exact U.
    + rewrite (proj2 (upsert_row_keys room url rows) H).
      apply NoDup_app; [exact U | repeat constructor; intros [] |].
      intros a Ha [<-|[]]. contradiction.
  - induction rows as [|[r0 u0] rows IH]; cbn.
    + intros u [[= <-]|[]]. reflexivity.
    + cbn in U. inversion U as [|? ? N U']; subst.
      destruct (String.eqb_spec r0 room) as [->|M]; cbn.
      * intros u [[= <-]|H]; [reflexivity|]. exfalso. apply N.
        apply in_map_iff. exists (room, u). auto.
      * intros u [[= E _]|H]; [contradiction|]. apply IH; assumption.
Qed.

Lemma upsert_ical_endpoint_rooms (room url : string) (st : store) :
  unique_rooms st -> unique_rooms (upsert_ical_endpoint room url st).
Proof.
  intros U. unfold unique_rooms, upsert_ical_endpoint. cbn.
  apply upsert_row_unique. exact U.
Qed.

(** X14. Saving an endpoint is a write by key: afterwards the map of
    the endpoints gives the room the new url and only that one, gives
    every other room what it gave before, has still one entry per room,
    and has gained an entry only when the room was new; the bookings are
    not touched. *)
Theorem upsert_ical_endpoint_writes_by_room (room url : string) (st : store) :
  unique_rooms st ->
  unique_rooms (upsert_ical_endpoint room url st)
  /\ In (room, url) (ICal.get_ical_map (upsert_ical_endpoint room url st))
  /\ (forall u, In (room, u) (ICal.get_ical_map (upsert_ical_endpoint room url st)) ->
                u = url)
  /\ (forall r u, r <> room ->
        (In (r, u) (ICal.get_ical_map (upsert_ical_endpoint room url st))
         <-> In (r, u) (ICal.get_ical_map st)))
  /\ (In room (map fst (ICal.get_ical_map st)) ->
      map fst (ICal.get_ical_map (upsert_ical_endpoint room url st))
      = map fst (ICal.get_ical_map st))
  /\ bookings (upsert_ical_endpoint room url st) = bookings st
  /\ sqlite_sequence (upsert_ical_endpoint room url st) = sqlite_sequence st.
Proof.
  intros U. unfold unique_rooms, upsert_ical_endpoint, ICal.get_ical_map in *. cbn.
  destruct (upsert_row_unique room url (ical_endpoints st) U) as [N O].
  split; [exact N|]. split; [apply upsert_row_In|]. split; [exact O|].
  split; [intros r u; apply upsert_row_other|].
  split; [apply upsert_row_keys | split; reflexivity].
Qed.

Lemma upsert_ical_endpoint_witness :
  unique_rooms (upsert_ical_endpoint "R1" "https://ical.example/r1.ics" cancelled_stay)
  /\ ICal.get_ical_map (upsert_ical_endpoint "R1" "https://ical.example/r1.ics" cancelled_stay)
     = [("R1", "https://ical.example/r1.ics")].
Proof.
  split; [|reflexivity].
  apply (upsert_ical_endpoint_writes_by_room "R1" "https://ical.example/r1.ics"
           cancelled_stay).
  repeat constructor. intros [].
Defined.

Lemma save_urls_endpoints (url_inputs : list (string * string)) :
  forall st,
    bookings (save_urls url_inputs st) = bookings st
    /\ sqlite_sequence (save_urls url_inputs st) = sqlite_sequence st
    /\ (forall r, In r (map fst (ical_endpoints st)) ->
                  In r (map fst (ical_endpoints (save_urls url_inputs st))))
    /\ (unique_rooms st -> unique_rooms (save_urls url_inputs st)).
Proof.
  unfold save_urls.
  induction url_inputs as [|[r u] inputs IH]; intros st; cbn [fold_left fst snd].
  - repeat split; auto.
  - destruct (negb (String.eqb (ICal.strip u) "")); [|apply IH].
    destruct (IH (upsert_ical_endpoint r (ICal.strip u) st)) as (B & S & K & N).
    split; [rewrite B; reflexivity|]. split; [rewrite S; reflexivity|]. split.
    + intros r0 H. apply K. unfold upsert_ical_endpoint. cbn.
      destruct (in_dec string_dec r (map fst (ical_endpoints st))) as [I|I].
      * rewrite (proj1 (upsert_row_keys r _ _) I). exact H.
      * rewrite (proj2 (upsert_row_keys r _ _) I). apply in_or_app. left. exact H.
    + intros U. apply N.
      apply (upsert_ical_endpoint_rooms r (ICal.strip u) st U).
Qed.

Lemma save_urls_other (url_inputs : list (string * string)) (r v : string) :
  forall st,
    (forall ru, In ru url_inputs -> fst ru <> r) ->
    (In (r, v) (ical_endpoints (save_urls url_inputs st)) <-> In (r, v) (ical_endpoints st)).
Proof.
  unfold save_urls.
  induction url_inputs as [|[r0 u0] inputs IH]; intros st N; cbn [fold_left fst snd];
    [reflexivity|].
  assert (N' : forall ru, In ru inputs -> fst ru <> r) by (intros ru H; apply N; right; exact H).
  destruct (negb (String.eqb (ICal.strip u0) "")); [|apply IH; exact N'].
  rewrite (IH _ N'). unfold upsert_ical_endpoint. cbn.
  apply upsert_row_other. intros E. apply (N (r0, u0)); [left; reflexivity | auto].
Qed.

(** X15. Saving the iCal form writes, for every room whose input is not
    blank, the input without the white space at its ends as the url of
    the room; a blank input is passed over, so the form cannot remove
    an endpoint: every room that had one still has one, and a form
    filled with blanks changes nothing.  The bookings are not
    touched. *)
Theorem save_urls_never_forgets_an_endpoint
    (url_inputs : list (string * string)) (st : store) :
  (forall r, In r (map fst (ICal.get_ical_map st)) ->
             In r (map fst (ICal.get_ical_map (save_urls url_inputs st))))
  /\ ((forall ru, In ru url_inputs -> ICal.strip (snd ru) = "") ->
      save_urls url_inputs st = st)
  /\ (forall r u,
         NoDup (map fst url_inputs) -> In (r, u) url_inputs -> ICal.strip u <> "" ->
         In (r, ICal.strip u) (ICal.get_ical_map (save_urls url_inputs st)))
  /\ (forall r v,
         (forall u, In (r, u) url_inputs -> ICal.strip u = "") ->
         NoDup (map fst url_inputs) ->
         (In (r, v) (ICal.get_ical_map (save_urls url_inputs st))
          <-> In (r, v) (ICal.get_ical_map st)))
  /\ (unique_rooms st -> unique_rooms (save_urls url_inputs st))
  /\ bookings (save_urls url_inputs st) = bookings st.
Proof.
  unfold ICal.get_ical_map.
  destruct (save_urls_endpoints url_inputs st) as (B & _ & K & U).
  split; [exact K|]. split; [|split; [|split; [|split; [exact U | exact B]]]].
  - clear B K U. revert st. unfold save_urls.
    induction url_inputs as [|[r u] inputs IH]; intros st Bl; [reflexivity|].
    cbn [fold_left fst snd].
    pose proof (Bl (r, u) (or_introl eq_refl)) as E. cbn [snd] in E. rewrite E.
    cbn [String.eqb negb]. apply IH. intros ru H. apply Bl. right. exact H.
  - clear B K U. revert st.
    induction url_inputs as [|[r0 u0] inputs IH]; intros st r u N HIn S; [destruct HIn|].
    cbn in N. inversion N as [|? ? N0 N1]; subst.
    change (save_urls ((r0, u0) :: inputs) st)
      with (save_urls inputs
              (if negb (String.eqb (ICal.strip u0) "")
               then upsert_ical_endpoint r0 (ICal.strip u0) st else st)).
    destruct HIn as [[= -> ->]|HIn].
    + apply String.eqb_neq in S. rewrite S. cbn [negb].
      apply save_urls_other.
      * intros ru H E. apply N0. apply in_map_iff. exists ru. auto.
      * unfold upsert_ical_endpoint. cbn. apply upsert_row_In.
    + apply IH; assumption.
  - clear B K U. revert st.
    induction url_inputs as [|[r0 u0] inputs IH]; intros st r v Bl N; [reflexivity|].
    cbn in N. inversion N as [|? ? N0 N1]; subst.
    change (save_urls ((r0, u0) :: inputs) st)
      with (save_urls inputs
              (if negb (String.eqb (ICal.strip u0) "")
               then upsert_ical_endpoint r0 (ICal.strip u0) st else st)).
    assert (Bl' : forall u, In (r, u) inputs -> ICal.strip u = "")
      by (intros u H; apply Bl; right; exact H).
    rewrite (IH _ r v Bl' N1).
    destruct (String.eqb_spec (ICal.strip u0) "") as [E|E]; cbn [negb]; [reflexivity|].
    unfold upsert_ical_endpoint. cbn. apply upsert_row_other.
    intros ->. apply E. apply Bl. left. reflexivity.
Qed.

Lemma save_urls_witness :
  save_urls [("R1", "   "); ("R2", "")] cancelled_stay = cancelled_stay
  /\ In ("R2", "https://ical.example/r2.ics")
        (ICal.get_ical_map
           (save_urls [("R1", ""); ("R2", " https://ical.example/r2.ics ")] cancelled_stay))
  /\ In ("R1", "https://ical.example/old.ics")
        (ICal.get_ical_map
           (save_urls [("R1", ""); ("R2", " https://ical.example/r2.ics ")] cancelled_stay)).
Proof.
  split; [|split].
  - apply (save_urls_never_forgets_an_endpoint [("R1", "   "); ("R2", "")] cancelled_stay).
    intros ru [<-|[<-|[]]]; reflexivity.
  - apply (save_urls_never_forgets_an_endpoint
             [("R1", ""); ("R2", " https://ical.example/r2.ics ")] cancelled_stay
          ) with (u := " https://ical.example/r2.ics ").
    + repeat constructor; cbn; intuition discriminate.
    + right. left. reflexivity.
    + discriminate.
  - apply (save_urls_never_forgets_an_endpoint
             [("R1", ""); ("R2", " https://ical.example/r2.ics ")] cancelled_stay).
    + intros u H. destruct H as [H|[H|[]]]; [injection H as <-; reflexivity | discriminate H].
    + repeat constructor; cbn; intuition discriminate.
    + left. reflexivity.
Defined.

(** ** [daterange] *)

Lemma date_range_empty (a b : date) : b < a -> date_range a b = [].
Proof.
  intros H. unfold date_range. replace (Z.to_nat (b - a + 1)) with 0%nat by lia.
  reflexivity.
Qed.

Lemma date_range_step (a b : date) :
  a <= b -> date_range a b = a :: date_range (a + 1) b.
Proof.
  intros H. unfold date_range.
  replace (Z.to_nat (b - a + 1)) with (S (Z.to_nat (b - (a + 1) + 1))) by lia.
  cbn [seq map]. f_equal; [lia|].
  rewrite <- seq_shift, map_map. apply map_ext. intros i. lia.
Qed.

(** X16. For two dates of Python, the generator
    [daterange(start, end)] ends, after one turn per day and one more,
    and yields the days from [start] to [end], both included, in
    order.  It ends by leaving the loop, except when [end] is
    [date.max] and there is a day to yield: then, after the last day,
    adding a day raises OverflowError.  When [end] is before [start] it
    yields nothing. *)
Theorem daterange_yields_the_days (fuel : nat) (start end_ : date) :
  date_min <= start <= date_max ->
  date_min <= end_ <= date_max ->
  (Z.to_nat (end_ - start + 1) < fuel)%nat ->
  let days :=
    map (fun i => start + Z.of_nat i) (seq 0 (Z.to_nat (end_ - start + 1))) in
  daterange fuel start end_
  = Some (days,
          if (start <=? end_) && (end_ =? date_max)
          then OverflowError else StopIteration)
  /\ (forall d, In d days <-> start <= d <= end_)
  /\ Z.of_nat (List.length days) = Z.max 0 (end_ - start + 1)
  /\ (end_ < start -> daterange fuel start end_ = Some ([], StopIteration)).
Proof.
  intros _ [_ M] F. cbv zeta.
  change (map (fun i => start + Z.of_nat i) (seq 0 (Z.to_nat (end_ - start + 1))))
    with (date_range start end_).
  assert (L : forall fuel start,
             (Z.to_nat (end_ - start + 1) < fuel)%nat ->
             daterange fuel start end_
             = Some (date_range start end_,
                     if (start <=? end_) && (end_ =? date_max)
                     then OverflowError else StopIteration)).
  { clear fuel start F. induction fuel as [|fuel IH]; intros start F; [lia|].
    cbn [daterange]. destruct (Z.leb_spec start end_) as [H|H]; cbn [andb].
    - destruct (Z.eqb_spec start date_max) as [E|E].
      + assert (E' : end_ = date_max) by lia.
        rewrite (date_range_step start end_ H), (date_range_empty (start + 1) end_) by lia.
        rewrite E', Z.eqb_refl. reflexivity.
      + rewrite IH by lia. cbn [option_map fst snd].
        rewrite (date_range_step start end_ H). f_equal. f_equal.
        destruct (Z.eqb_spec end_ date_max) as [E'|E'].
        * destruct (Z.leb_spec (start + 1) end_); [reflexivity | lia].
        * rewrite andb_false_r. reflexivity.
    - rewrite (date_range_empty start end_ H). reflexivity. }
  split; [apply L; exact F|]. split; [intros d; apply in_date_range|]. split.
  - unfold date_range. rewrite length_map, length_seq. lia.
  - intros H. rewrite (L fuel start F), (date_range_empty start end_ H).
    destruct (Z.leb_spec start end_); [lia | reflexivity].
Qed.

Lemma daterange_witness :
  daterange 4 1 3 = Some ([1; 2; 3], StopIteration)
  /\ daterange 1 5 3 = Some ([], StopIteration)
  /\ daterange 3 (date_max - 1) date_max
     = Some ([date_max - 1; date_max], OverflowError).
Proof.
  split; [|split].
  - apply (daterange_yields_the_days 4 1 3); unfold date_min, date_max; cbn; lia.
  - apply (daterange_yields_the_days 1 5 3); unfold date_min, date_max; cbn; lia.
  - apply (daterange_yields_the_days 3 (date_max - 1) date_max);
      unfold date_min, date_max; cbn; lia.
Defined.

(** ** [rooms_list] *)

Lemma room_eqb_eq (a b : option string) : room_eqb a b = true <-> a = b.
Proof.
  destruct a as [x|], b as [y|]; cbn; try (split; congruence).
  rewrite String.eqb_eq. split; congruence.
Qed.

Lemma existsb_room_eqb (x : option string) (l : list (option string)) :
  existsb (room_eqb x) l = true <-> In x l.
Proof.
  rewrite existsb_exists. split.
  - intros (y & Hy & E). apply room_eqb_eq in E. subst y. exact Hy.
  - intros H. exists x. split; [exact H | apply room_eqb_eq; reflexivity].
Qed.

Lemma distinct_spec (l : list (option string)) :
  NoDup (distinct l) /\ forall x, In x (distinct l) <-> In x l.
Proof.
  induction l as [|a l [N I]]; cbn; [split; [constructor | tauto]|].
  destruct (existsb (room_eqb a) l) eqn:E.
  - apply existsb_room_eqb in E. split; [exact N|]. intros x. rewrite I.
    split; [auto | intros [<-|H]; auto].
  - split.
    + constructor; [|exact N]. rewrite I. intros H.
      apply existsb_room_eqb in H. congruence.
    + intros x. cbn. rewrite I. reflexivity.
Qed.

Lemma insert_by_room_perm (r : option string) (l : list (option string)) :
  Permutation (insert_by_room r l) (r :: l).
Proof.
  induction l as [|x l IH]; cbn; [reflexivity|].
  destruct (room_leb r x); [reflexivity|]. rewrite IH. apply perm_swap.
Qed.

Lemma order_by_room_perm (l : list (option string)) : Permutation (order_by_room l) l.
Proof.
  induction l as [|x l IH]; cbn; [reflexivity|].
  rewrite insert_by_room_perm, IH. reflexivity.
Qed.

Lemma add_defaults_spec (defaults : list string) :
  forall existing,
    NoDup existing ->
    let rooms :=
      fold_left
        (fun existing d =>
           if existsb (room_eqb (Some d)) existing then existing
           else existing ++ [Some d])
        defaults existing in
    NoDup rooms
    /\ (forall x, In x rooms <-> In x existing \/ exists d, In d defaults /\ x = Some d)
    /\ exists added, rooms = existing ++ added.
Proof.
  induction defaults as [|d defaults IH]; intros existing N; cbn [fold_left].
  - split; [exact N|]. split; [|exists []; symmetry; apply app_nil_r].
    intros x. split; [auto | intros [H|(d & [] & _)]; exact H].
  - destruct (existsb (room_eqb (Some d)) existing) eqn:E.
    + apply existsb_room_eqb in E. destruct (IH existing N) as (N' & I & A).
      split; [exact N'|]. split; [|exact A].
      intros x. rewrite I. split.
      * intros [H|(d0 & H & ->)]; [auto | right; exists d0; split; [right|]; auto].
      * intros [H|(d0 & [<-|H] & ->)]; [auto | auto | right; exists d0; auto].
    + assert (N1 : NoDup (existing ++ [Some d])).
      { apply NoDup_app; [exact N | repeat constructor; intros [] |].
        intros a Ha [<-|[]]. apply existsb_room_eqb in Ha. congruence. }
      destruct (IH _ N1) as (N' & I & (added & A)).
      split; [exact N'|]. split; [|exists (Some d :: added); rewrite A, <- app_assoc; reflexivity].
      intros x. rewrite I, in_app_iff. cbn [In]. split.
      * intros [[H|[<-|[]]]|(d0 & H & ->)]; auto.
        -- right. exists d. auto.
        -- right. exists d0. auto.
      * intros [H|(d0 & [<-|H] & ->)]; auto. right. exists d0. auto.
Qed.

(** X17. [rooms_list()] holds the room of every booking and every
    default room, nothing else, and nothing twice; the rooms of the
    bookings come first, and with no booking the list is the defaults in
    their order.  A booking without a room puts [None] into the list. *)
Theorem rooms_list_is_the_rooms_and_the_defaults (st : store) :
  NoDup (rooms_list st)
  /\ (forall b, In b (bookings st) -> In (Booking.room b) (rooms_list st))
  /\ (forall d, In d default_rooms -> In (Some d) (rooms_list st))
  /\ (forall r, In r (rooms_list st) ->
                (exists b, In b (bookings st) /\ Booking.room b = r)
                \/ exists d, In d default_rooms /\ r = Some d)
  /\ (exists existing added,
         rooms_list st = existing ++ added
         /\ Permutation existing (distinct (map Booking.room (bookings st))))
  /\ (bookings st = [] -> rooms_list st = map Some default_rooms).
Proof.
  unfold rooms_list. cbv zeta.
  destruct (distinct_spec (map Booking.room (bookings st))) as [N I].
  pose proof (order_by_room_perm (distinct (map Booking.room (bookings st)))) as P.
  assert (N' : NoDup (order_by_room (distinct (map Booking.room (bookings st))))).
  { apply (Permutation_NoDup (Permutation_sym P)). exact N. }
  assert (I' : forall x, In x (order_by_room (distinct (map Booking.room (bookings st))))
                         <-> exists b, In b (bookings st) /\ Booking.room b = x).
  { intros x. split.
    - intros H. apply (Permutation_in _ P) in H. apply I in H.
      apply in_map_iff in H. destruct H as (b & E & Hb). exists b. auto.
    - intros (b & Hb & E). apply (Permutation_in _ (Permutation_sym P)). apply I.
      apply in_map_iff. exists b. auto. }
  destruct (add_defaults_spec default_rooms _ N') as (D & M & (added & A)).
  cbv zeta in D, M, A.
  split; [exact D|]. split; [|split; [|split; [|split]]].
  - intros b Hb. apply M. left. apply I'. exists b. auto.
  - intros d Hd. apply M. right. exists d. auto.
  - intros r H. apply M in H. destruct H as [H|H]; [left; apply I'; exact H | right; exact H].
  - eexists. exists added. split; [exact A | exact P].
  - intros E. rewrite E. reflexivity.
Qed.

Lemma rooms_list_witness :
  rooms_list empty_store = [Some "Camera 1"; Some "Camera 2"; Some "Appartamento"].
Proof.
  apply (rooms_list_is_the_rooms_and_the_defaults empty_store). reflexivity.
Defined.

(** ** The grid, the conflicts and the forms: how they meet *)

Lemma occupancy_matrix_cells_witness :
  exists v,
    cell {| index := [1; 2; 3]; columns := ["R1"; "R2"];
            cells := [[1; 0]; [1; 0]; [0; 0]] |} 2 "R1" = Some v
    /\ (v = 0 \/ v = 1)
    /\ (v = 1 <->
        exists b,
          In b (fetch_bookings (Some 1) (Some 3) None None None cancelled_stay)
          /\ Booking.room b = Some "R1" /\ covers_night b 2).
Proof.
  destruct (occupancy_matrix_cells 1 3 ["R1"; "R2"] cancelled_stay
              {| index := [1; 2; 3]; columns := ["R1"; "R2"];
                 cells := [[1; 0]; [1; 0]; [0; 0]] |} eq_refl) as (_ & _ & H).
  apply H; [lia | left; reflexivity].
Defined.

Lemma occupancy_matrix_overhang_witness :
  occupancy_matrix 1 3 ["R1"] stay_beyond_period = Raise (KeyError "not in index").
Proof.
  apply (occupancy_matrix_raises_on_overhang 1 3 ["R1"] stay_beyond_period
           (example_row 1 "R1" "Confermata" 2 5) "R1").
  - left. reflexivity.
  - reflexivity.
  - left. reflexivity.
  - right. cbn. lia.
Defined.

Lemma overlap_where_exclude check_in check_out room x b :
  Sql.holds (overlap_where check_in check_out room (Some x) b)
  = Sql.holds (overlap_where check_in check_out room None b)
    && negb (Booking.id b =? x).
Proof.
  unfold overlap_where.
  destruct (Sql.tv_and _ (Some (Booking.check_out b >? check_in))) as [[|]|];
    destruct (negb (Booking.id b =? x)); reflexivity.
Qed.

(** X20. Without an excluded id a booking that is not cancelled and has
    a night is itself among the conflicts of its own room and dates;
    with its id excluded it is not, and excluding an id takes nothing
    else away: the conflicts with an id excluded are the conflicts
    without, less the rows of that id. *)
Theorem has_overlap_excludes_only_the_edited_booking
    (check_in check_out : date) (room : string) (x : Z) (st : store) :
  snd (has_overlap check_in check_out room (Some x) st)
  = filter (fun b => negb (Booking.id b =? x))
           (snd (has_overlap check_in check_out room None st))
  /\ (forall b, In b (snd (has_overlap check_in check_out room (Some x) st)) ->
                Booking.id b <> x)
  /\ (forall b s,
         In b (bookings st) -> Booking.room b = Some room ->
         Booking.status b = Some s -> s <> "Annullata" ->
         Booking.check_in b < Booking.check_out b ->
         In b (snd (has_overlap (Booking.check_in b) (Booking.check_out b) room None st))).
Proof.
  split; [|split].
  - unfold has_overlap. cbn [snd].
    induction (bookings st) as [|b rows IH]; [reflexivity|].
    cbn [filter]. rewrite overlap_where_exclude.
    destruct (Sql.holds (overlap_where check_in check_out room None b)); cbn [andb filter].
    + destruct (negb (Booking.id b =? x)); rewrite IH; reflexivity.
    + exact IH.
  - intros b H. apply has_overlap_rows in H. destruct H as (_ & _ & _ & E & _).
    apply E. reflexivity.
  - intros b s Hb R S N D. apply has_overlap_rows. split; [exact Hb|].
    unfold conflicting. repeat split; auto; try lia.
    + exists s. auto.
    + discriminate.
Qed.

Lemma has_overlap_excludes_witness :
  In (example_row 1 "R1" "Confermata" 1 5) (snd (has_overlap 1 5 "R1" None example_store)).
Proof.
  apply (has_overlap_excludes_only_the_edited_booking 1 5 "R1" 1 example_store
        ) with (s := "Confermata").
  - left. reflexivity.
  - reflexivity.
  - reflexivity.
  - discriminate.
  - reflexivity.
Defined.

(** X21. Nothing keeps a form from being sent twice: sent again, the
    form for a new booking stores a second booking with the same
    values under the next id, and, the first one being in the way (when
    it is not cancelled), shows the warning of the overlap this time. *)
Theorem new_booking_form_twice_books_twice
    (f : form) (now1 now2 : timestamp) (st : store) :
  valid_form f -> f_status f <> "Annullata" ->
  let first := new_booking_form f now1 st in
  let second := new_booking_form f now2 (db first) in
  bookings (db second)
  = bookings st ++ [form_row (next_rowid st) f now1;
                    form_row (next_rowid st + 1) f now2]
  /\ In (st_warning OverlapWarning) (shown second)
  /\ raised second = None.
Proof.
  intros V C. cbv zeta. destruct (valid_form_tests f V) as [N D].
  assert (E1 : db (new_booking_form f now1 st)
               = with_bookings st (bookings st ++ [form_row (next_rowid st) f now1])
                               (next_rowid st)).
  { unfold new_booking_form. rewrite N, D.
    destruct (has_overlap _ _ _ None st) as [o c]. rewrite insert_form_data. reflexivity. }
  rewrite E1. set (st1 := with_bookings st _ _).
  assert (Nx : next_rowid st1 = next_rowid st + 1).
  { unfold next_rowid at 1. unfold st1. cbn [bookings sqlite_sequence with_bookings].
    rewrite max_rowid_append. cbn [form_row Booking.id].
    pose proof (max_rowid_nonneg (bookings st)). unfold next_rowid. lia. }
  assert (O : fst (has_overlap (f_check_in f) (f_check_out f) (f_room f) None st1) = true).
  { assert (I : In (form_row (next_rowid st) f now1)
                   (snd (has_overlap (f_check_in f) (f_check_out f) (f_room f) None st1))).
    { apply has_overlap_rows. split.
      - unfold st1. cbn. apply in_or_app. right. left. reflexivity.
      - destruct V as [_ V]. unfold conflicting. cbn. repeat split; try lia.
        + exists (f_status f). auto.
        + discriminate. }
    unfold has_overlap in *. cbn [fst snd] in *.
    destruct (filter _ (bookings st1)); [destruct I | reflexivity]. }
  unfold new_booking_form. rewrite N, D.
  destruct (has_overlap _ _ _ None st1) as [o c]. cbn [fst] in O. subst o.
  rewrite insert_form_data, Nx. cbn [db shown raised bookings with_bookings].
  split; [unfold st1; cbn; rewrite <- app_assoc; reflexivity|].
  split; [|reflexivity].
  unfold overlap_notice. apply String.eqb_neq in C. rewrite C. cbn. auto.
Qed.

Lemma new_booking_form_twice_witness :
  bookings (db (new_booking_form example_form 60
                  (db (new_booking_form example_form 50 example_store))))
  = bookings example_store ++ [form_row 3 example_form 50; form_row 4 example_form 60].
Proof.
  apply (new_booking_form_twice_books_twice example_form 50 60 example_store).
  - split; [discriminate | reflexivity].
  - discriminate.
Defined.

Section DeleteAndSync.
Import ICal ICalFacts.

Variable requests_get : string -> option string.
Variable Calendar : string -> option (list Event).

(** X22. A delete does not outlast a sync: when the bookings that
    carry the key of an event of the feed are deleted, the next import
    of the feed, finding no booking with that key, creates one again
    for the room. *)
Theorem deleted_import_comes_back
    (booking_id : Z) (room url : string) (events : list Event) (ev : Event)
    (clock : nat -> timestamp) (st : store) :
  feed_events requests_get Calendar url events ->
  In ev events -> dated ev ->
  (forall b, In b (bookings st) -> has_provenance (event_uid room ev) b ->
             Booking.id b = booking_id) ->
  let run := import_ics_for_room requests_get Calendar room url clock
               (delete_booking booking_id st) in
  1 <= snd (fst run)
  /\ exists new b,
       bookings (fst (fst run)) = bookings (delete_booking booking_id st) ++ new
       /\ In b new
       /\ has_provenance (event_uid room ev) b
       /\ Booking.room b = Some room.
Proof.
  intros (text & G & C) HIn D Only. cbv zeta.
  assert (K : already_imported (event_uid room ev) (delete_booking booking_id st) = false).
  { apply already_imported_false. intros b Hb P. unfold delete_booking in Hb.
    cbn in Hb. apply filter_In in Hb. destruct Hb as [Hb Ne].
    apply negb_true_iff, Z.eqb_neq in Ne. apply Ne. apply Only; assumption. }
  unfold import_ics_for_room. rewrite G, C.
  destruct (import_events_appends room clock events 0 (delete_booking booking_id st) 0)
    as (new & B & Cn & _ & F).
  pose proof (import_events_covers room clock events 0 (delete_booking booking_id st) 0
                ev HIn D) as Cov.
  destruct (import_events room clock 0 events (delete_booking booking_id st, 0))
    as [st1 n1].
  cbn [fst snd] in *.
  apply already_imported_iff in Cov. destruct Cov as (b & Hb & P).
  rewrite B in Hb. apply in_app_or in Hb. destruct Hb as [Hb|Hb].
  { destruct (proj1 (already_imported_false _ _) K b Hb P). }
  split; [destruct new; [destruct Hb | rewrite Cn; cbn [List.length]; lia]|].
  exists new, b. split; [exact B|]. split; [exact Hb|]. split; [exact P|].
  rewrite Forall_forall in F. destruct (F b Hb) as (ev' & _ & _ & _ & I).
  apply I.
Qed.

End DeleteAndSync.

Lemma deleted_import_witness :
  1 <= snd (fst (ICal.import_ics_for_room example_requests_get example_Calendar
                   "R1" "https://ical.example/r1.ics" (fun _ => 70)
                   (delete_booking 3 imported_store))).
Proof.
  apply (deleted_import_comes_back example_requests_get example_Calendar
           3 "R1" "https://ical.example/r1.ics" example_events example_event
           (fun _ => 70) imported_store).
  - exists "BEGIN:VCALENDAR". split; reflexivity.
  - left. reflexivity.
  - split; discriminate.
  - intros b Hb [P1 P2]. vm_compute in Hb.
    destruct Hb as [<-|[<-|[<-|[<-|[]]]]]; try reflexivity; discriminate P2.
Defined.
